(** * audiotools: the BS.1770 loudness meter (audiotools/core/loudness.py)

    A shallow embedding of [unfold1d], [Meter] and [LoudnessMixin.loudness].

    - Tensor elements are IEEE-754 values ([spec_float] of the Standard
      Library): binary32 for audio data, binary64 where the float64 buffer
      [G] or a Python float takes part.
    - A torch tensor is a view (offset, sizes, strides) onto a flat storage
      that lives in a store; in-place writes go to the store, so two names
      of one tensor ([z] and [z_avg_gated]) see each other's writes.
    - Python exceptions are results [Raise e]; [e] records the class of the
      exception and the program point that raises it. *)

From Stdlib Require Import ZArith List Bool Lia PeanoNat.
From Stdlib Require Import SpecFloat.
Import ListNotations.

Set Implicit Arguments.

(* ================================================================== *)
(** ** IEEE-754 scalars *)

Definition float := spec_float.

Record format := mkFormat { prec : Z; emax : Z }.

Definition binary32 := mkFormat 24 128.
Definition binary64 := mkFormat 53 1024.

Definition fadd (f : format) : float -> float -> float := SFadd (prec f) (emax f).
Definition fsub (f : format) : float -> float -> float := SFsub (prec f) (emax f).
Definition fmul (f : format) : float -> float -> float := SFmul (prec f) (emax f).
Definition fdiv (f : format) : float -> float -> float := SFdiv (prec f) (emax f).

(** Conversion of a value to format [f], round to nearest even
    ([Tensor.float()], type promotion, casting a Python scalar). *)
Definition fcast (f : format) (x : float) : float :=
  match x with
  | S754_finite s m e => binary_round (prec f) (emax f) s m e
  | _ => x
  end.

Definition of_int (f : format) (z : Z) : float :=
  binary_normalize (prec f) (emax f) z 0 false.

(** The float64 nearest to the decimal literal [n/d]; both are small
    integers, so the division rounds once. *)
Definition literal (n d : Z) : float := fdiv binary64 (of_int binary64 n) (of_int binary64 d).

Definition pzero : float := S754_zero false.
Definition pinf : float := S754_infinity false.
Definition ninf : float := S754_infinity true.
Definition nan : float := S754_nan.

Definition fle (x y : float) : bool := SFleb x y.
Definition flt (x y : float) : bool := SFltb x y.
Definition fgt (x y : float) : bool := SFltb y x.
Definition feq (x y : float) : bool := SFeqb x y.
Definition isnan (x : float) : bool :=
  match x with S754_nan => true | _ => false end.

(** [np.finfo(np.float32).max] and [.min]. *)
Definition float32_max : float := SFmax_float 24 128.
Definition float32_min : float := SFopp float32_max.

(** [torch.maximum]: a NaN operand gives NaN. *)
Definition fmaximum (x y : float) : float :=
  match SFcompare x y with
  | None => nan
  | Some Lt => y
  | Some _ => x
  end.

Definition is_zero (x : float) : bool :=
  match x with S754_zero _ => true | _ => false end.

Definition is_finite (x : float) : bool :=
  match x with S754_zero _ | S754_finite _ _ _ => true | _ => false end.

(** Sum of a list, left to right from +0. *)
Definition fsum (f : format) (xs : list float) : float :=
  fold_left (fadd f) xs pzero.

(* ================================================================== *)
(** ** Python exceptions and results *)

Inductive pyexc :=
| ValueError | OverflowError | ZeroDivisionError | RuntimeError | IndexError
| Dangling. (* a reference to a storage that does not exist: never raised
               by a run that starts from handles into its own store *)

(** Program points of loudness.py that can raise. *)
Inductive site :=
| AtInt         (* int(...) at lines 116-117 and 218 *)
| AtFloorDiv    (* [// stride], line 19 *)
| AtAsStrided   (* [input.as_strided], line 24 *)
| AtLfilter     (* [torchaudio.functional.lfilter], line 95 *)
| AtUnpack      (* [nb, nt, nch = input_data.shape], line 136 *)
| AtInit        (* [impulse[..., 0] = 1.0], line 52 *)
| AtGain        (* [G[None, :nch, None] * z], line 149 *)
| AtThreshold   (* [z_avg_gated * G[None, :nch]], line 160 *)
| AtExpand      (* [Gamma_r.expand(nb, nch, ...)], line 163 *)
| AtMask        (* masked assignments, lines 154, 167, 168 *)
| AtAverage     (* [z_avg_gated.sum(2) / masked.sum(2)], lines 156, 170 *)
| AtLufs        (* [G[None, :nch] * z_avg_gated], line 180 *)
| AtDesign      (* pyloudnorm's choice of the filter class *)
| AtStore.      (* access to the store *)

Definition exn : Type := pyexc * site.

Inductive result (A : Type) : Type :=
| Ok (a : A)
| Raise (e : exn).
Arguments Ok {A} a.
Arguments Raise {A} e.

(** [int(x)] of a Python float: truncation toward zero. *)
Definition py_int (x : float) : result Z :=
  match x with
  | S754_nan => Raise (ValueError, AtInt)
  | S754_infinity _ => Raise (OverflowError, AtInt)
  | S754_zero _ => Ok 0%Z
  | S754_finite s m e => Ok (cond_Zopp s (Z.shiftl (Zpos m) e))
  end.

(* ================================================================== *)
(** ** The store and its monad

    [globals] holds the storages that outlive a call (the caller's
    tensors, the buffers of a [Meter]); [locals] holds the storages a call
    allocates for its temporaries and starts empty at each call. *)

Definition storage := list float.

Record state := mkState { globals : list storage; locals : list storage }.

Inductive ref := Global (n : nat) | Local (n : nat).

Definition M (A : Type) : Type := state -> state * result A.

Definition ret {A} (a : A) : M A := fun s => (s, Ok a).
Definition raise {A} (e : exn) : M A := fun s => (s, Raise e).
Definition bind {A B} (c : M A) (k : A -> M B) : M B :=
  fun s => match c s with
           | (s', Ok a) => k a s'
           | (s', Raise e) => (s', Raise e)
           end.
Definition lift {A} (r : result A) : M A := fun s => (s, r).

Declare Scope monad_scope.
Delimit Scope monad_scope with monad.
Notation "x <- c ;; k" := (bind c (fun x => k))
  (at level 100, c at next level, right associativity) : monad_scope.
Notation "' p <- c ;; k" := (bind c (fun x => let 'p := x in k))
  (at level 100, p pattern, c at next level, right associativity) : monad_scope.
Notation "c ;;; k" := (bind c (fun _ => k))
  (at level 100, right associativity) : monad_scope.
Open Scope monad_scope.

Definition lookup (s : state) (r : ref) : option storage :=
  match r with
  | Global n => nth_error (globals s) n
  | Local n => nth_error (locals s) n
  end.

Fixpoint upd {A} (l : list A) (n : nat) (x : A) : list A :=
  match l, n with
  | [], _ => []
  | _ :: t, O => x :: t
  | h :: t, S n' => h :: upd t n' x
  end.

Definition load (r : ref) : M storage :=
  fun s => match lookup s r with
           | Some d => (s, Ok d)
           | None => (s, Raise (Dangling, AtStore))
           end.

Definition store (r : ref) (d : storage) : M unit :=
  fun s => match lookup s r with
           | None => (s, Raise (Dangling, AtStore))
           | Some _ =>
             match r with
             | Global n => (mkState (upd (globals s) n d) (locals s), Ok tt)
             | Local n => (mkState (globals s) (upd (locals s) n d), Ok tt)
             end
           end.

(** A fresh storage for a temporary of the running call. *)
Definition alloc (d : storage) : M ref :=
  fun s => (mkState (globals s) (locals s ++ [d]), Ok (Local (length (locals s)))).

(** A fresh storage that outlives the call ([register_buffer]). *)
Definition galloc (d : storage) : M ref :=
  fun s => (mkState (globals s ++ [d]) (locals s), Ok (Global (length (globals s)))).

Fixpoint foldM {A B} (f : B -> A -> M B) (l : list A) (b : B) : M B :=
  match l with
  | [] => ret b
  | x :: l' => b' <- f b x ;; foldM f l' b'
  end.

(* ================================================================== *)
(** ** Tensors: strided views onto storages *)

(** A tensor of any rank, as the caller hands it over: one
    (size, stride) pair per dimension. *)
Record tensor := mkTensor {
  t_ref : ref;
  t_off : nat;
  t_dims : list (nat * nat);
  t_cuda : bool
}.

Record view3 := mkV3 {
  v_ref : ref; v_off : nat;
  sz0 : nat; sz1 : nat; sz2 : nat;
  st0 : nat; st1 : nat; st2 : nat;
  v_cuda : bool
}.

Record view4 := mkV4 {
  w_ref : ref; w_off : nat;
  wz0 : nat; wz1 : nat; wz2 : nat; wz3 : nat;
  wt0 : nat; wt1 : nat; wt2 : nat; wt3 : nat
}.

Definition tab {A} (n : nat) (f : nat -> A) : list A := map f (seq 0 n).

Definition at_ (d : storage) (i : nat) : float := nth i d pzero.

(** The elements of a view, dimension by dimension. *)
Definition gather3 (d : storage) (v : view3) : list (list (list float)) :=
  tab (sz0 v) (fun i => tab (sz1 v) (fun j => tab (sz2 v) (fun k =>
    at_ d (v_off v + i * st0 v + j * st1 v + k * st2 v)))).

Definition gather4 (d : storage) (v : view4) : list (list (list (list float))) :=
  tab (wz0 v) (fun i => tab (wz1 v) (fun j => tab (wz2 v) (fun k => tab (wz3 v) (fun l =>
    at_ d (w_off v + i * wt0 v + j * wt1 v + k * wt2 v + l * wt3 v))))).

Definition read3 (v : view3) : M (list (list (list float))) :=
  d <- load (v_ref v) ;; ret (gather3 d v).

Definition read4 (v : view4) : M (list (list (list (list float)))) :=
  d <- load (w_ref v) ;; ret (gather4 d v).

Definition flatten3 {A} (x : list (list (list A))) : list A := concat (concat x).

(** Strides of a freshly allocated (contiguous) tensor. *)
Definition dense3 (r : ref) (a b c : nat) (cuda : bool) : view3 :=
  mkV3 r 0 a b c (Nat.max b 1 * Nat.max c 1) (Nat.max c 1) 1 cuda.

(** A fresh tensor holding the nested value [x] of shape (a, b, c). *)
Definition fresh3 (a b c : nat) (cuda : bool) (x : list (list (list float))) : M view3 :=
  r <- alloc (flatten3 x) ;; ret (dense3 r a b c cuda).

(** [t.permute(0, 2, 1)]. *)
Definition permute021 (v : view3) : view3 :=
  mkV3 (v_ref v) (v_off v) (sz0 v) (sz2 v) (sz1 v) (st0 v) (st2 v) (st1 v) (v_cuda v).

(** [t[..., :stop]] with Python's reading of a negative [stop]. *)
Definition py_stop (len : nat) (stop : Z) : nat :=
  if (stop <? 0)%Z then Z.to_nat (Z.max 0 (Z.of_nat len + stop))
  else Nat.min len (Z.to_nat stop).

Definition slice_last (v : view3) (stop : Z) : view3 :=
  mkV3 (v_ref v) (v_off v) (sz0 v) (sz1 v) (py_stop (sz2 v) stop)
       (st0 v) (st1 v) (st2 v) (v_cuda v).

(** [t.is_contiguous()]: dimensions of size 1 are skipped, and a tensor
    without elements is contiguous. *)
Definition is_contiguous (v : view3) : bool :=
  (sz0 v * sz1 v * sz2 v =? 0) ||
  (((sz2 v =? 1) || (st2 v =? 1)) &&
   ((sz1 v =? 1) || (st1 v =? sz2 v)) &&
   ((sz0 v =? 1) || (st0 v =? sz1 v * sz2 v))).

(** [t.contiguous()]: the tensor itself when it is contiguous, a copy
    otherwise. *)
Definition contiguous (v : view3) : M view3 :=
  if is_contiguous v then ret v
  else x <- read3 v ;; fresh3 (sz0 v) (sz1 v) (sz2 v) (v_cuda v) x.

(** The largest int64: the sizes and strides of a tensor lie below it. *)
Definition int64_max : Z := 9223372036854775807.

(** [t.as_strided(sizes, strides)] keeps the storage and its offset. The
    sizes and strides must not be negative, and unless the result is empty
    its last element must lie inside the storage. The sizes and strides
    are taken to be those a tensor can have, at most [int64_max]: a Python
    int beyond it does not reach these checks (the call is refused with a
    TypeError when its arguments are read). *)
Definition as_strided (v : view3) (a b c d : Z) (ta tb tc td : Z) : M view4 :=
  if ((a <? 0) || (b <? 0) || (c <? 0) || (d <? 0) ||
      (ta <? 0) || (tb <? 0) || (tc <? 0) || (td <? 0))%Z
  then raise (RuntimeError, AtAsStrided)
  else
    s <- load (v_ref v) ;;
    let w := mkV4 (v_ref v) (v_off v)
                  (Z.to_nat a) (Z.to_nat b) (Z.to_nat c) (Z.to_nat d)
                  (Z.to_nat ta) (Z.to_nat tb) (Z.to_nat tc) (Z.to_nat td) in
    if (wz0 w * wz1 w * wz2 w * wz3 w =? 0) then ret w
    else if v_off v + (wz0 w - 1) * wt0 w + (wz1 w - 1) * wt1 w
                    + (wz2 w - 1) * wt2 w + (wz3 w - 1) * wt3 w <? length s
    then ret w
    else raise (RuntimeError, AtAsStrided).

(** [t.transpose(-1, -2)]. *)
Definition transpose_last (w : view4) : view4 :=
  mkV4 (w_ref w) (w_off w) (wz0 w) (wz1 w) (wz3 w) (wz2 w)
       (wt0 w) (wt1 w) (wt3 w) (wt2 w).

(* ================================================================== *)
(** ** unfold1d (lines 14-25) *)

Definition unfold1d (input : view3) (kernel_size stride : Z) : M view4 :=
  let length := Z.of_nat (sz2 input) in
  if (stride =? 0)%Z then raise (ZeroDivisionError, AtFloorDiv)
  else
    let n_frames := ((Z.max length kernel_size - kernel_size) / stride + 1)%Z in
    let tgt_length := ((n_frames - 1) * stride + kernel_size)%Z in
    input <- contiguous (slice_last input tgt_length) ;;
    out <- as_strided input
             (Z.of_nat (sz0 input)) (Z.of_nat (sz1 input)) n_frames kernel_size
             (Z.of_nat (st0 input)) (Z.of_nat (st1 input)) stride 1 ;;
    ret (transpose_last out).

(* ================================================================== *)
(** ** Filter stages

    A stage is pyloudnorm's [IIRfilter]: a biquad with numerator [b],
    denominator [a] and a pass-band gain, all float64. *)

Module IIRfilter.
Record t := mk {
  b : float * float * float;
  a : float * float * float;
  passband_gain : float
}.
End IIRfilter.

(** [lfilter] on one row (torchaudio.functional.lfilter with clamp=False in
    binary32, scipy.signal.lfilter in binary64): the coefficients are divided
    by [a0], the state starts at zero, and each sample is
    [(b2 x[n-2] + b1 x[n-1] + b0 x[n]) - a2 y[n-2] - a1 y[n-1]]. *)
Fixpoint lfilter_loop (f : format) (b0 b1 b2 a1 a2 : float)
    (x1 x2 y1 y2 : float) (xs : list float) : list float :=
  match xs with
  | [] => []
  | x :: xs' =>
    let w := fadd f (fadd f (fmul f b2 x2) (fmul f b1 x1)) (fmul f b0 x) in
    let y := fsub f (fsub f w (fmul f a2 y2)) (fmul f a1 y1) in
    y :: lfilter_loop f b0 b1 b2 a1 a2 x x1 y y1 xs'
  end.

Definition lfilter (f : format) (a b : float * float * float) (xs : list float) : list float :=
  let '(a0, a1, a2) := a in
  let '(b0, b1, b2) := b in
  lfilter_loop f (fdiv f b0 a0) (fdiv f b1 a0) (fdiv f b2 a0)
                 (fdiv f a1 a0) (fdiv f a2 a0) pzero pzero pzero pzero xs.

Definition cast3 (f : format) (c : float * float * float) : float * float * float :=
  let '(c0, c1, c2) := c in (fcast f c0, fcast f c1, fcast f c2).

Definition dot (f : format) (xs ys : list float) : float :=
  fsum f (map (fun p => fmul f (fst p) (snd p)) (combine xs ys)).

(** [julius.fftconv.fft_conv1d] of one row with one kernel: the valid
    cross-correlation, [out[j] = sum_k row[j+k] * kernel[k]]. *)
Definition fft_conv1d (row kernel : list float) : list float :=
  tab (length row + 1 - length kernel)
      (fun j => dot binary32 (skipn j row) kernel).

(** [F.pad(row, (p, p))]. *)
Definition pad (p : nat) (row : list float) : list float :=
  repeat pzero p ++ row ++ repeat pzero p.

(* ================================================================== *)
(** ** Meter *)

Inductive filter_class :=
| K_weighting | Fenton_Lee_1 | Fenton_Lee_2 | Dash_et_al | DeMan | custom
| other_class.

Record Meter := mkMeter {
  rate : Z;
  block_size : float;
  use_fir : bool;
  _filters : list IIRfilter.t;
  G : ref;
  firs : view3;
  passband_gain : ref
}.

Definition f64_one : float := of_int binary64 1.

Section Loudness.

(** What the model takes from outside the repository: [log10] of a positive
    finite float64 [m * 2^e] as the platform computes it, and pyloudnorm's
    filter design for a filter class and a sample rate. *)
Variable log10_pos : positive -> Z -> float.
Variable pyloudnorm_filters : filter_class -> Z -> result (list IIRfilter.t).

(** [torch.log10] on float64: the special values are those of C's log10. *)
Definition flog10 (x : float) : float :=
  match x with
  | S754_nan => nan
  | S754_zero _ => ninf
  | S754_infinity false => pinf
  | S754_infinity true => nan
  | S754_finite true _ _ => nan
  | S754_finite false m e => log10_pos m e
  end.

(** [Meter.__init__] (lines 31-64). [impulse[..., 0] = 1.0] needs
    [zeros > 0]. *)
Definition Meter_init (rate : Z) (fc : filter_class) (block_size : float)
    (zeros : nat) (use_fir : bool) : M Meter :=
  filters <- lift (pyloudnorm_filters fc rate) ;;
  G <- galloc [f64_one; f64_one; f64_one; literal 141 100; literal 141 100] ;;
  match zeros with
  | O => raise (IndexError, AtInit)
  | S z' =>
    let impulse := f64_one :: repeat pzero z' in
    let rows := map (fun st =>
                  map (fcast binary32)
                      (rev (lfilter binary64 (IIRfilter.a st) (IIRfilter.b st) impulse)))
                    filters in
    let gains := map (fun st => fcast binary32 (IIRfilter.passband_gain st)) filters in
    fr <- galloc (concat rows) ;;
    pg <- galloc gains ;;
    ret (mkMeter rate block_size use_fir filters G
                 (dense3 fr (length filters) 1 zeros false) pg)
  end.

(** [Meter.apply_filter_gpu] (lines 66-85). The reshape of the permuted
    data is taken to copy; each stage leaves [data] a view, one element
    in, of the storage of its product. *)
Definition fir_stage (m : Meter) (nt : nat) (data : view3) (i : nat) : M view3 :=
  let pad_length := sz2 (firs m) in
  rows <- read3 data ;;
  fr <- load (v_ref (firs m)) ;;
  pg <- load (passband_gain m) ;;
  let kernel := tab pad_length (fun k => at_ fr (v_off (firs m) + i * st0 (firs m) + k * st2 (firs m))) in
  let out := map (map (fun row =>
               map (fmul binary32 (at_ pg i)) (fft_conv1d (pad pad_length row) kernel))) rows in
  let width := nt + 2 * pad_length + 1 - pad_length in
  r <- alloc (flatten3 out) ;;
  ret (mkV3 r 1 (sz0 data) 1 (Nat.min nt (width - 1))
            (Nat.max width 1) (Nat.max width 1) 1 (v_cuda data)).

Definition apply_filter_gpu (m : Meter) (data : view3) : M view3 :=
  let nb := sz0 data in
  let nt := sz1 data in
  let nch := sz2 data in
  x <- read3 (permute021 data) ;;
  data <- fresh3 (nb * nch) 1 nt (v_cuda data) (map (fun row => [row]) (concat x)) ;;
  data <- foldM (fir_stage m nt) (seq 0 (sz0 (firs m))) data ;;
  let data := permute021 data in
  ret (mkV3 (v_ref data) (v_off data) (sz0 data) (Nat.min (sz1 data) nt) (sz2 data)
            (st0 data) (st1 data) (st2 data) (v_cuda data)).

(** [Meter.apply_filter_cpu] (lines 87-99). [lfilter] reshapes its input
    to (-1, 1, nt) and refuses a time axis without samples with a
    RuntimeError (line 95). The product keeps the strides of
    [filtered.permute(0, 2, 1)]. *)
Definition iir_stage (data : view3) (filter_stage : IIRfilter.t) : M view3 :=
  let passband_gain := fcast binary32 (IIRfilter.passband_gain filter_stage) in
  let a_coeffs := cast3 binary32 (IIRfilter.a filter_stage) in
  let b_coeffs := cast3 binary32 (IIRfilter.b filter_stage) in
  if sz1 data =? 0 then raise (RuntimeError, AtLfilter) else
  _data <- read3 (permute021 data) ;;
  let filtered := map (map (lfilter binary32 a_coeffs b_coeffs)) _data in
  r <- alloc (flatten3 (map (map (map (fmul binary32 passband_gain))) filtered)) ;;
  ret (permute021 (dense3 r (sz0 data) (sz2 data) (sz1 data) (v_cuda data))).

Definition apply_filter_cpu (m : Meter) (data : view3) : M view3 :=
  foldM iir_stage (_filters m) data.

(** [Meter.apply_filter] (lines 101-106). *)
Definition apply_filter (m : Meter) (data : view3) : M view3 :=
  if v_cuda data || use_fir m then apply_filter_gpu m data
  else apply_filter_cpu m data.

(** [Meter.unfold] (lines 111-120). *)
Definition block_samples (m : Meter) : float :=
  fmul binary64 (block_size m) (of_int binary64 (rate m)).

Definition unfold (m : Meter) (input_data : view3) : M view4 :=
  let overlap := literal 75 100 in
  let step := fsub binary64 f64_one overlap in
  kernel_size <- lift (py_int (block_samples m)) ;;
  stride <- lift (py_int (fmul binary64 (block_samples m) step)) ;;
  unfold1d (permute021 input_data) kernel_size stride.

(* ------------------------------------------------------------------ *)
(** *** Broadcasting and the tensor expressions of integrated_loudness *)

(** Size of a dimension after broadcasting sizes [p] and [q]. *)
Definition bdim (where_ : site) (p q : nat) : result nat :=
  if p =? q then Ok p
  else if p =? 1 then Ok q
  else if q =? 1 then Ok p
  else Raise (RuntimeError, where_).

(** Entry [i] of a dimension of size [n] seen through a broadcast. *)
Definition bget {A} (d : A) (n : nat) (xs : list A) (i : nat) : A :=
  nth (if n =? 1 then 0 else i) xs d.

Definition ndim (t : tensor) : nat := length (t_dims t).

(** [t.unsqueeze(-1)] and [t.unsqueeze(0)]. *)
Definition unsqueeze_last (t : tensor) : tensor :=
  mkTensor (t_ref t) (t_off t) (t_dims t ++ [(1, 1)]) (t_cuda t).

Definition unsqueeze_first (t : tensor) : tensor :=
  let s := match t_dims t with [] => 1 | (n, s) :: _ => n * s end in
  mkTensor (t_ref t) (t_off t) ((1, s) :: t_dims t) (t_cuda t).

(** [nb, nt, nch = input_data.shape]. *)
Definition unpack3 (t : tensor) : M view3 :=
  match t_dims t with
  | [(a, x); (b, y); (c, z)] => ret (mkV3 (t_ref t) (t_off t) a b c x y z (t_cuda t))
  | _ => raise (ValueError, AtUnpack)
  end.

Definition square (x : float) : float := fmul binary32 x x.

(** One (batch, channel) entry of
    [(1.0 / (T_g * rate)) * unfolded.square().sum(2)]: [blk] is indexed
    [sample in block][block]. *)
Definition block_energy (scale : float) (nf : nat) (blk : list (list float)) : list float :=
  tab nf (fun f =>
    fmul binary32 scale (fsum binary32 (map (fun row => square (nth f row pzero)) blk))).

(** [-0.691 + 10.0 * log10(s)] in float64. *)
Definition lufs_of (s : float) : float :=
  fadd binary64 (literal (-691) 1000) (fmul binary64 (literal 10 1) (flog10 s)).

(** One batch entry of [(G[None, :nch, None] * z).sum(1, keepdim=True)]:
    [g] has [gl] gains, [zb] has [C] channels of [nf] blocks, the product
    has [Cr] channels. *)
Definition gain_sum (g : list float) (gl C Cr nf : nat) (zb : list (list float)) : list float :=
  tab nf (fun f =>
    fsum binary64 (tab Cr (fun c =>
      fmul binary64 (bget pzero gl g c) (nth f (bget [] C zb c) pzero)))).

(** One batch entry of [(z_avg_gated * G[None, :nch]).sum(-1)] (line 160)
    and of [(G[None, :nch] * z_avg_gated).sum(1)] (line 180). *)
Definition avg_gain_sum (g : list float) (gl C Cr : nat) (zb : list float) : float :=
  fsum binary64 (tab Cr (fun c => fmul binary64 (bget pzero C zb c) (bget pzero gl g c))).

Definition gain_avg_sum (g : list float) (gl C Cr : nat) (zb : list float) : float :=
  fsum binary64 (tab Cr (fun c => fmul binary64 (bget pzero gl g c) (bget pzero C zb c))).

Definition count_true (bs : list bool) : nat := length (filter (fun x => x) bs).

(** [z.sum(2) / masked.sum(2)]: the counts are int64 and are converted to
    float32 by the division. *)
Definition average (zv : list (list (list float))) (masked : list (list (list bool)))
  : list (list float) :=
  map (fun p => map (fun q =>
         fdiv binary32 (fsum binary32 (fst q))
                       (of_int binary32 (Z.of_nat (count_true (snd q)))))
       (combine (fst p) (snd p)))
      (combine zv masked).

Definition map3 {A B} (f : A -> B) (x : list (list (list A))) : list (list (list B)) :=
  map (map (map f)) x.

(** [t[mask] = 0] on a freshly allocated tensor: its storage holds the
    elements in the order of the mask. *)
Definition masked_zero (t : view3) (mask : list (list (list bool))) : M unit :=
  d <- load (v_ref t) ;;
  store (v_ref t) (map (fun p : bool * float => if fst p then pzero else snd p)
                       (combine (flatten3 mask) d)).

(** [t[t == x] = y] on the storage of a freshly allocated tensor. *)
Definition replace_eq (r : ref) (x y : float) : M unit :=
  d <- load r ;; store r (map (fun e => if feq e x then y else e) d).

Definition gather2 (d : storage) (a b : nat) : list (list float) :=
  tab a (fun i => tab b (fun j => at_ d (i * b + j))).

(* ------------------------------------------------------------------ *)
(** *** Meter.integrated_loudness (lines 122-181) *)

(** Line 148: [z = (1.0 / (T_g * self.rate)) * unfolded.square().sum(2)],
    a fresh float32 tensor of shape (batch, channel, block). *)
Definition block_energies (m : Meter) (unfolded : view4) : M view3 :=
  u <- read4 unfolded ;;
  let scale := fcast binary32 (fdiv binary64 f64_one (block_samples m)) in
  fresh3 (wz0 unfolded) (wz1 unfolded) (wz3 unfolded) false
         (map (map (block_energy scale (wz3 unfolded))) u).

(** Lines 149-170. [z_avg_gated = z] binds a second name to the tensor
    [z]: the masked assignments write to the storage of [z]. The result is
    the last [z_avg_gated], of shape (batch, channel). *)
Definition gating (Gv : storage) (nb nch : nat) (z : view3) : M (list (list float)) :=
  let B := sz0 z in
  let C := sz1 z in
  let nf := sz2 z in
  let Gamma_a := literal (-70) 1 in
  let g := firstn nch Gv in
  let gl := length g in
  zv <- read3 z ;;
  Cr <- lift (bdim AtGain gl C) ;;
  let l := map (fun zb => repeat (map lufs_of (gain_sum g gl C Cr nf zb)) C) zv in
  (* lines 153-156 *)
  let z_avg_gated := z in
  masked_zero z_avg_gated (map3 (fun x => fle x Gamma_a) l) ;;;
  let masked := map3 (fun x => fgt x Gamma_a) l in
  zv <- read3 z_avg_gated ;;
  let z_avg_gated := average zv masked in
  (* lines 159-163 *)
  Ct <- lift (bdim AtThreshold C gl) ;;
  let Gamma_r := map (fun zb => fsub binary64 (lufs_of (avg_gain_sum g gl C Ct zb))
                                     (literal 10 1)) z_avg_gated in
  if negb ((B =? nb) || (B =? 1)) then raise (RuntimeError, AtExpand)
  else
    let Gamma_r := tab nb (fun b => bget nan B Gamma_r b) in
    (* lines 166-170 *)
    let z_avg_gated := z in
    masked_zero z_avg_gated (map3 (fun x => fle x Gamma_a) l) ;;;
    B' <- lift (bdim AtMask B nb) ;;
    C' <- lift (bdim AtMask C nch) ;;
    if negb ((B' =? B) && (C' =? C)) then raise (IndexError, AtMask)
    else
      let thr := tab B (fun b => bget nan nb Gamma_r b) in
      let with_thr := combine l thr in
      masked_zero z_avg_gated
        (map (fun p => map (map (fun x => fle x (snd p))) (fst p)) with_thr) ;;;
      let masked :=
        map (fun p => map (map (fun x => fgt x Gamma_a && fgt x (snd p))) (fst p))
            with_thr in
      zv <- read3 z_avg_gated ;;
      ret (average zv masked).

(** Lines 174-181 on a [z_avg_gated] of shape (B, C). *)
Definition finalize (Gv : storage) (nch B C : nat) (z_avg_gated : list (list float))
  : M (list float) :=
  let g := firstn nch Gv in
  let gl := length g in
  r <- alloc (concat (map (map (fun x => if isnan x then pzero else x)) z_avg_gated)) ;;
  replace_eq r pinf float32_max ;;;
  replace_eq r ninf float32_min ;;;
  d <- load r ;;
  let z_avg_gated := gather2 d B C in
  Cl <- lift (bdim AtLufs gl C) ;;
  ret (map (fun zb => fcast binary32 (lufs_of (gain_avg_sum g gl C Cl zb))) z_avg_gated).

(** Lines 122-148: the call up to the block energies [z], with the buffer
    [G] and the batch and channel counts of the input. A float32 tensor is
    its own [.float()], and [copy.copy] gives a second handle onto the same
    storage. *)
Definition energies (m : Meter) (data : tensor) : M (storage * nat * nat * view3) :=
  let input_data := data in
  let input_data := if ndim input_data <? 2 then unsqueeze_last input_data else input_data in
  let input_data := if ndim input_data <? 3 then unsqueeze_first input_data else input_data in
  input_data <- unpack3 input_data ;;
  let nb := sz0 input_data in
  let nch := sz2 input_data in
  input_data <- apply_filter m input_data ;;
  Gv <- load (G m) ;;
  unfolded <- unfold m input_data ;;
  z <- block_energies m unfolded ;;
  ret (Gv, nb, nch, z).

(** Lines 122-170: the call up to the last [z_avg_gated]. *)
Definition gated_energy (m : Meter) (data : tensor)
  : M (storage * view3 * nat * list (list float)) :=
  e <- energies m data ;;
  let '(Gv, nb, nch, z) := e in
  z_avg_gated <- gating Gv nb nch z ;;
  ret (Gv, z, nch, z_avg_gated).

Definition integrated_loudness (m : Meter) (data : tensor) : M (list float) :=
  r <- gated_energy m data ;;
  let '(Gv, z, nch, z_avg_gated) := r in
  finalize Gv nch (sz0 z) (sz1 z) z_avg_gated.

(** A call runs with an empty set of temporaries and gives the caller's
    back when it returns. *)
Definition call {A} (c : M A) : M A :=
  fun s => let (s', r) := c (mkState (globals s) []) in
           (mkState (globals s') (locals s), r).

(* ================================================================== *)
(** ** LoudnessMixin (lines 184-234) *)

Record AudioSignal := mkSignal {
  audio_data : view3;           (* (batch, channel, time) *)
  sample_rate : Z;
  _loudness : option (list float)
}.

Definition MIN_LOUDNESS : Z := (-70)%Z.

(** Modelled from the spec: the signal container is not under src/. Its
    [signal_length] is the size of the time axis, [signal_duration] is
    [signal_length / sample_rate], [zero_pad] replaces [audio_data] by a
    zero-padded copy and [truncate_samples] by its first samples (the
    "caller-side padding" of the spec's section 6). *)
Definition signal_length (self : AudioSignal) : nat := sz2 (audio_data self).

Definition signal_duration (self : AudioSignal) : float :=
  fdiv binary64 (of_int binary64 (Z.of_nat (signal_length self)))
                (of_int binary64 (sample_rate self)).

Definition zero_pad (self : AudioSignal) (before after : Z) : M AudioSignal :=
  let v := audio_data self in
  x <- read3 v ;;
  let p := Z.to_nat before in
  let q := Z.to_nat after in
  r <- galloc (flatten3 (map (map (fun row => repeat pzero p ++ row ++ repeat pzero q)) x)) ;;
  ret (mkSignal (dense3 r (sz0 v) (sz1 v) (p + sz2 v + q) (v_cuda v))
                (sample_rate self) (_loudness self)).

Definition truncate_samples (self : AudioSignal) (length_in_samples : nat) : AudioSignal :=
  mkSignal (slice_last (audio_data self) (Z.of_nat length_in_samples))
           (sample_rate self) (_loudness self).

Definition tensor_of (v : view3) : tensor :=
  mkTensor (v_ref v) (v_off v) [(sz0 v, st0 v); (sz1 v, st1 v); (sz2 v, st2 v)] (v_cuda v).

(** [loudness(filter_class, block_size, **kwargs)]; the keyword arguments
    are those of [Meter]: [zeros] and [use_fir]. *)
Definition loudness (self : AudioSignal) (fc : filter_class) (block_size : float)
    (zeros : nat) (use_fir : bool) : M (AudioSignal * list float) :=
  match _loudness self with
  | Some v => ret (self, v)
  | None =>
    let original_length := signal_length self in
    let half := literal 5 10 in
    self <- (if flt (signal_duration self) half then
               pad_len <- lift (py_int (fmul binary64
                                  (fsub binary64 half (signal_duration self))
                                  (of_int binary64 (sample_rate self)))) ;;
               zero_pad self 0 pad_len
             else ret self) ;;
    meter <- Meter_init (sample_rate self) fc block_size zeros use_fir ;;
    loudness <- call (integrated_loudness meter
                        (tensor_of (permute021 (audio_data self)))) ;;
    let self := truncate_samples self original_length in
    let min_loudness := of_int binary32 MIN_LOUDNESS in
    let v := map (fun x => fmaximum x min_loudness) loudness in
    ret (mkSignal (audio_data self) (sample_rate self) (Some v), v)
  end.

End Loudness.

(* ================================================================== *)
(** ** Reference instances of what the model takes from outside

    They serve to run the model on concrete inputs; no general theorem
    below depends on them. *)

(** [log2] of [y / 2^230], [y] in [2^230, 2^231), to [n] fractional bits,
    by repeated squaring. *)
Fixpoint log2_frac (n : nat) (y acc : Z) : Z :=
  match n with
  | O => acc
  | S n' =>
    let y2 := Z.shiftr (y * y) 230 in
    if (Z.shiftl 1 231 <=? y2)%Z
    then log2_frac n' (Z.shiftr y2 1) (2 * acc + 1)%Z
    else log2_frac n' y2 (2 * acc)%Z
  end.

(** [log10 (m * 2^e)], rounded to float64 from a 100-bit approximation. *)
Definition log10_ref (m : positive) (e : Z) : float :=
  let d := Z.pos (digits2_pos m) in
  let y := Z.shiftl (Z.pos m) (231 - d) in
  let l2 := ((e + d - 1) * Z.shiftl 1 100 + log2_frac 100 y 0)%Z in
  binary_normalize 53 1024 (l2 * 102435199438739363750012109250103232700)%Z (-228) false.

(** The two K-weighting stages as ITU-R BS.1770 tabulates them for
    48 kHz; the "custom" class has no stage. *)
Definition itu_high_shelf : IIRfilter.t :=
  IIRfilter.mk
    (literal 153512485958697 100000000000000,
     literal (-269169618940638) 100000000000000,
     literal 119839281085285 100000000000000)
    (f64_one,
     literal (-169065929318241) 100000000000000,
     literal 73248077421585 100000000000000)
    f64_one.

Definition itu_high_pass : IIRfilter.t :=
  IIRfilter.mk
    (f64_one, literal (-2) 1, f64_one)
    (f64_one,
     literal (-199004745483398) 100000000000000,
     literal 99007225036621 100000000000000)
    f64_one.

Definition itu_filters (fc : filter_class) (rate : Z) : result (list IIRfilter.t) :=
  match fc with
  | K_weighting => Ok [itu_high_shelf; itu_high_pass]
  | custom => Ok []
  | _ => Raise (ValueError, AtDesign)
  end.

(* ================================================================== *)
(** ** Example data

    A meter at 20 Hz with the default block of 0.4 s has blocks of 8
    samples every 2 samples; impulse responses have 4 taps. *)

Definition f32 (n d : Z) : float := fcast binary32 (literal n d).

Definition contiguous_dims (a b c : nat) : list (nat * nat) :=
  [(a, b * c); (b, c); (c, 1)].

(** The state in which the caller owns one storage, and a meter built in
    it for the filter class [fc]. *)
Definition ex_state (d : storage) : state := mkState [d] [].

Definition ex_meter_at (rate : Z) (fc : filter_class) (fir : bool) (d : storage)
  : state * result Meter :=
  Meter_init itu_filters rate fc (literal 4 10) 4 fir (ex_state d).

Definition ex_meter (fc : filter_class) (fir : bool) (d : storage) : state * result Meter :=
  ex_meter_at 20 fc fir d.

(** The meter that [ex_meter custom false] builds: no stage, the buffers
    after the caller's storage. *)
Definition ex_custom_meter : Meter :=
  mkMeter 20 (literal 4 10) false [] (Global 1) (dense3 (Global 2) 0 1 4 false) (Global 3).

(** [integrated_loudness] of the tensor of shape [dims] over the storage [d]. *)
Definition ex_loudness (fc : filter_class) (fir : bool) (dims : list (nat * nat))
    (d : storage) : result (list float) :=
  match ex_meter fc fir d with
  | (s, Ok m) => snd (call (integrated_loudness log10_ref m (mkTensor (Global 0) 0 dims false)) s)
  | (_, Raise e) => Raise e
  end.

(** Twelve periods of the square wave +0.5, -0.5. *)
Definition ex_square_wave : storage :=
  flat_map (fun _ => [f32 1 2; f32 (-1) 2]) (seq 0 12).

(** A signal object of one channel and ten samples of silence. *)
Definition ex_signal : AudioSignal :=
  mkSignal (dense3 (Global 0) 1 1 10 false) 20 None.

(* ================================================================== *)
(** ** Definitions used to state the properties *)

(** A view stays inside its storage. *)
Definition in_bounds (v : view3) (d : storage) : Prop :=
  sz0 v * sz1 v * sz2 v <> 0 ->
  v_off v + (sz0 v - 1) * st0 v + (sz1 v - 1) * st1 v + (sz2 v - 1) * st2 v < length d.

(** Number of whole blocks of [ks] samples, [stride] apart, in [len] samples. *)
Definition n_blocks (len ks stride : nat) : nat := (len - ks) / stride + 1.

(** The blocks of one row, indexed [sample in block][block]: block [f]
    holds the samples [f * stride .. f * stride + ks - 1]. *)
Definition windows (ks stride nf : nat) (row : list float) : list (list float) :=
  tab ks (fun k => tab nf (fun f => nth (f * stride + k) row pzero)).


(** Python's [round(x)] of a float: the nearest integer, ties to even. *)
Definition py_round (x : float) : result Z :=
  match x with
  | S754_nan => Raise (ValueError, AtInt)
  | S754_infinity _ => Raise (OverflowError, AtInt)
  | S754_zero _ => Ok 0%Z
  | S754_finite s m e =>
    let a :=
      if (0 <=? e)%Z then Z.shiftl (Zpos m) e
      else
        let q := Z.shiftl (Zpos m) e in
        let r := (Zpos m - Z.shiftl q (- e))%Z in
        let h := Z.shiftl 1 (- e - 1) in
        if (h <? r)%Z || ((r =? h)%Z && Z.odd q) then (q + 1)%Z else q in
    Ok (cond_Zopp s a)
  end.

(** [k] is the integer part of the non-negative float [x]. *)
Definition integer_part (x : float) (k : Z) : Prop :=
  match x with
  | S754_zero _ => k = 0%Z
  | S754_finite false m e =>
    ((0 <= e)%Z -> k = (Zpos m * 2 ^ e)%Z) /\
    ((e < 0)%Z -> (k * 2 ^ (- e) <= Zpos m < (k + 1) * 2 ^ (- e))%Z)
  | _ => False
  end.

(** Windowing as the specification words it (section 4.3, step 1): block
    length [round(T_g * rate)], stride [round(block length * (1 - overlap))],
    output of shape (batch, channel, n_blocks, block_length). *)
Definition unfold_as_specified (m : Meter) (input_data : view3) (s : state) : Prop :=
  exists block_length stride s' w,
    py_round (block_samples m) = Ok (Z.of_nat block_length) /\
    py_round (fmul binary64 (of_int binary64 (Z.of_nat block_length))
                   (fsub binary64 f64_one (literal 75 100)))
    = Ok (Z.of_nat stride) /\
    unfold m input_data s = (s', Ok w) /\
    (wz0 w, wz1 w, wz2 w, wz3 w)
    = (sz0 input_data, sz2 input_data,
       n_blocks (sz1 input_data) block_length stride, block_length).




(** Section 6 of the specification as it is worded: an input shorter than
    one gating block is measured without an exception and gives NaN or
    zero for every signal. *)
Definition short_input_passes (lg : positive -> Z -> float) (m : Meter)
    (input : view3) (s : state) : Prop :=
  forall ks, py_int (block_samples m) = Ok ks ->
    1 <= sz1 input -> (Z.of_nat (sz1 input) < ks)%Z ->
    exists vs, snd (call (integrated_loudness lg m (tensor_of input)) s) = Ok vs /\
               Forall (fun x => isnan x = true \/ is_zero x = true) vs.


(** A nested list of shape (a, b, c). *)
Definition rect3 {A} (a b c : nat) (x : list (list (list A))) : Prop :=
  length x = a /\
  Forall (fun p => length p = b /\ Forall (fun r => length r = c) p) x.

(** One stage of the direct strategy on data indexed
    [signal][channel][sample] (lines 89-98). *)
Definition iir_rows (filter_stage : IIRfilter.t) (y : list (list (list float)))
  : list (list (list float)) :=
  map3 (fmul binary32 (fcast binary32 (IIRfilter.passband_gain filter_stage)))
       (map (map (lfilter binary32 (cast3 binary32 (IIRfilter.a filter_stage))
                                   (cast3 binary32 (IIRfilter.b filter_stage)))) y).

Definition iir_cascade (stages : list IIRfilter.t) (y : list (list (list float)))
  : list (list (list float)) :=
  fold_left (fun y st => iir_rows st y) stages y.





(** A nested list of shape (a, b). *)
Definition rect2 {A} (a b : nat) (x : list (list A)) : Prop :=
  length x = a /\ Forall (fun r => length r = b) x.

(** What lines 174-179 leave of one entry of [z_avg_gated]: NaN becomes 0,
    +infinity the largest float32 and -infinity the most negative one. *)
Definition sanitize (x : float) : float :=
  match x with
  | S754_nan => pzero
  | S754_infinity false => float32_max
  | S754_infinity true => float32_min
  | _ => x
  end.


(* ------------------------------------------------------------------ *)
(** *** Gating of one signal, on the block energies as line 148 leaves them *)

(** The absolute threshold of line 145. *)
Definition Gamma_a : float := literal (-70) 1.

(** [zs] with +0 in place of the entries where [mask] holds. *)
Definition zero_where (mask : list bool) (zs : list float) : list float :=
  map (fun p : bool * float => if fst p then pzero else snd p) (combine mask zs).

(** The sum of a channel's energies once the blocks of [mask] are zeroed,
    divided by the number of blocks of [keep]. *)
Definition gated_mean (mask keep : list bool) (zs : list float) : float :=
  fdiv binary32 (fsum binary32 (zero_where mask zs))
                (of_int binary32 (Z.of_nat (count_true keep))).

Section GateSignal.
Variable log10_pos : positive -> Z -> float.
Variable g : list float.        (* the gains [G[:nch]] *)
Variables C nf : nat.           (* channels and blocks *)
Variable zb : list (list float).  (* [z[b]], indexed [channel][block] *)

(** Line 149: the loudness of each block of the signal. *)
Definition block_loudness : list float :=
  map (lufs_of log10_pos) (gain_sum g (length g) C C nf zb).

(** Lines 153-163 on energies that no assignment has touched yet. *)
Definition relative_threshold : float :=
  let l := block_loudness in
  let z_avg := map (gated_mean (map (fun x => fle x Gamma_a) l)
                               (map (fun x => fgt x Gamma_a) l)) zb in
  fsub binary64 (lufs_of log10_pos (avg_gain_sum g (length g) C C z_avg)) (literal 10 1).

(** Lines 166-170 on energies that no assignment has touched yet. *)
Definition gate_signal : list float :=
  let l := block_loudness in
  let Gamma_r := relative_threshold in
  map (gated_mean (map (fun x => fle x Gamma_a || fle x Gamma_r) l)
                  (map (fun x => fgt x Gamma_a && fgt x Gamma_r) l)) zb.

(** The energies of the signal as the three masked assignments leave them
    in the storage of [z]. *)
Definition zeroed_signal : list (list float) :=
  let l := block_loudness in
  let Gamma_r := relative_threshold in
  map (zero_where (map (fun x => fle x Gamma_a || fle x Gamma_r) l)) zb.

End GateSignal.


(** The state in which the storage [n] of the temporaries holds [d]. *)
Definition set_local (s : state) (n : nat) (d : storage) : state :=
  mkState (globals s) (upd (locals s) n d).

(** The sign bit of [x] is clear, or [x] is NaN. *)
Definition nonneg (x : float) : bool :=
  match x with
  | S754_zero s | S754_infinity s | S754_finite s _ _ => negb s
  | S754_nan => true
  end.

(* ------------------------------------------------------------------ *)
(** *** Steps 4 and 5 of the specification as they are worded *)

(** The entries of [zs] at the blocks that [keep] selects. *)
Definition select (keep : list bool) (zs : list float) : list float :=
  map snd (filter (fun p : bool * float => fst p) (combine keep zs)).

(** "Sum over surviving blocks divided by their count". *)
Definition mean_of_selected (keep : list bool) (zs : list float) : float :=
  fdiv binary32 (fsum binary32 (select keep zs))
                (of_int binary32 (Z.of_nat (length (select keep zs)))).

(** One signal: [z_avg_gated[b, c]] is the average of the energies [z]
    over exactly the blocks with [l > Gamma_a] and [l > Gamma_r], where
    [Gamma_r] comes from the averages over the blocks with [l > Gamma_a]. *)
Definition average_of_survivors (lg : positive -> Z -> float) (g : list float)
    (C nf : nat) (zb : list (list float)) : list float :=
  let l := block_loudness lg g C nf zb in
  let za := map (mean_of_selected (map (fun x => fgt x Gamma_a) l)) zb in
  let Gamma_r :=
    fsub binary64 (lufs_of lg (avg_gain_sum g (length g) C C za)) (literal 10 1) in
  map (mean_of_selected (map (fun x => fgt x Gamma_a && fgt x Gamma_r) l)) zb.

(** The final gating as the specification words it: whatever the input,
    the gated averages are those of the energies of line 148 over exactly
    the surviving blocks. *)
Definition final_gating_as_specified (lg : positive -> Z -> float) (m : Meter)
    (data : tensor) (s : state) : Prop :=
  forall s1 Gv nb nch z zd s2 z_avg_gated,
    energies m data s = (s1, Ok (Gv, nb, nch, z)) ->
    lookup s1 (v_ref z) = Some zd ->
    gating lg Gv nb nch z s1 = (s2, Ok z_avg_gated) ->
    z_avg_gated
    = map (average_of_survivors lg (firstn nch Gv) (sz1 z) (sz2 z)) (gather3 zd z).

(** Ten samples of two channels, interleaved: the square wave on both, and
    a NaN as the last sample of the first channel. *)
Definition ex_nan_sample : storage :=
  firstn 18 ex_square_wave ++ [nan; f32 (-1) 2].


(* ------------------------------------------------------------------ *)
(** *** One signal under the direct strategy *)

(** One filter stage on the channels of one signal (lines 89-98). *)
Definition iir_signal (filter_stage : IIRfilter.t) (x : list (list float))
  : list (list float) :=
  map (map (fmul binary32 (fcast binary32 (IIRfilter.passband_gain filter_stage))))
      (map (lfilter binary32 (cast3 binary32 (IIRfilter.a filter_stage))
                             (cast3 binary32 (IIRfilter.b filter_stage))) x).

Definition signal_cascade (stages : list IIRfilter.t) (x : list (list float))
  : list (list float) :=
  fold_left (fun x st => iir_signal st x) stages x.






(** The stages of the direct strategy on one row of samples (one channel
    of one signal): [lfilter] with the float32 coefficients of the stage,
    then its pass-band gain, stage after stage. *)
Definition row_cascade (stages : list IIRfilter.t) (row : list float) : list float :=
  fold_left (fun r st =>
               map (fmul binary32 (fcast binary32 (IIRfilter.passband_gain st)))
                   (lfilter binary32 (cast3 binary32 (IIRfilter.a st))
                                     (cast3 binary32 (IIRfilter.b st)) r))
            stages row.


(** [Meter.forward] (lines 108-109). *)
Definition forward (lg : positive -> Z -> float) (m : Meter) (data : tensor)
  : M (list float) :=
  integrated_loudness lg m data.

(** [c] only adds storages after those that exist and gives the running
    call its temporaries back; a value it returns satisfies [P]. *)
Definition grows {A} (P : A -> Prop) (c : M A) : Prop :=
  forall s s' r, c s = (s', r) ->
    (exists ext, globals s' = globals s ++ ext) /\ locals s' = locals s /\
    forall a, r = Ok a -> P a.


(** Lines 217-219 of [loudness]: a signal shorter than 0.5 s is padded
    with zeros to 0.5 s before it is measured. *)
Definition padded_for_measurement (self : AudioSignal) : M AudioSignal :=
  let half := literal 5 10 in
  if flt (signal_duration self) half then
    pad_len <- lift (py_int (fmul binary64
                       (fsub binary64 half (signal_duration self))
                       (of_int binary64 (sample_rate self)))) ;;
    zero_pad self 0 pad_len
  else ret self.

(** [r] is [x] floored at -70 by [torch.maximum]. *)
Definition floored (x r : float) : Prop :=
  let lo := of_int binary32 MIN_LOUDNESS in
  if isnan x then isnan r = true
  else fle lo r = true /\ (fle lo x = true -> r = x) /\ (fle lo x = false -> r = lo).

(* ================================================================== *)
(** * Properties *)

(** ** Running the monad *)

Lemma bind_ok {A B} (c : M A) (k : A -> M B) s s' a :
  c s = (s', Ok a) -> bind c k s = k a s'.
Proof. intros H; unfold bind; now rewrite H. Qed.

Lemma bind_raise {A B} (c : M A) (k : A -> M B) s s' e :
  c s = (s', Raise e) -> bind c k s = (s', Raise e).
Proof. intros H; unfold bind; now rewrite H. Qed.

(** ** Frame: which computations leave the caller's storages alone *)

(** [keeps P c]: [c] never changes [globals], and a value it returns
    satisfies [P]. *)
Definition keeps {A} (P : A -> Prop) (c : M A) : Prop :=
  forall s s' r, c s = (s', r) ->
    globals s' = globals s /\ forall a, r = Ok a -> P a.

Definition is_local (r : ref) : Prop := exists n, r = Local n.

Lemma keeps_ret {A} (P : A -> Prop) a : P a -> keeps P (ret a).
Proof.
  intros HP s s' r H; inversion H; subst; split; auto.
  intros ? E; inversion E; subst; auto.
Qed.

Lemma keeps_raise {A} (P : A -> Prop) e : keeps P (raise e).
Proof. intros s s' r H; inversion H; subst; split; auto. intros ? E; discriminate. Qed.

Lemma keeps_lift {A} (r0 : result A) : keeps (fun a => r0 = Ok a) (lift r0).
Proof. intros s s' r H; inversion H; subst; split; auto. Qed.

Lemma keeps_weaken {A} (P Q : A -> Prop) c :
  keeps P c -> (forall a, P a -> Q a) -> keeps Q c.
Proof. intros H HPQ s s' r E; destruct (H _ _ _ E); split; auto. Qed.

Lemma keeps_bind {A B} (P : A -> Prop) (Q : B -> Prop) (c : M A) (k : A -> M B) :
  keeps P c -> (forall a, P a -> keeps Q (k a)) -> keeps Q (bind c k).
Proof.
  intros Hc Hk s s' r E. unfold bind in E.
  destruct (c s) as [s1 [a|e]] eqn:Ec.
  - destruct (Hc _ _ _ Ec) as [G1 Pa].
    destruct (Hk a (Pa a eq_refl) _ _ _ E) as [G2 Qb]. split; [congruence|auto].
  - inversion E; subst. destruct (Hc _ _ _ Ec) as [G1 _]. split; auto.
    intros ? X; discriminate.
Qed.

Lemma keeps_load r : keeps (fun _ => True) (load r).
Proof.
  intros s s' x E. unfold load in E. destruct (lookup s r); inversion E; subst; auto.
Qed.

Lemma keeps_alloc d : keeps is_local (alloc d).
Proof.
  intros s s' x E. inversion E; subst; simpl; split; auto.
  intros a Ha; inversion Ha; subst. now eexists.
Qed.

Lemma keeps_store_local n d : keeps (fun _ => True) (store (Local n) d).
Proof.
  intros s s' x E. unfold store in E. destruct (lookup s (Local n)); inversion E; subst; auto.
Qed.

Lemma keeps_foldM {A B} (P : B -> Prop) (f : B -> A -> M B) l :
  (forall b x, P b -> keeps P (f b x)) ->
  forall b, P b -> keeps P (foldM f l b).
Proof.
  intros Hf; induction l as [|x l IH]; intros b Pb; simpl.
  - now apply keeps_ret.
  - eapply keeps_bind; [now apply Hf | auto].
Qed.

Lemma keeps_call {A} (P : A -> Prop) (c : M A) : keeps P c -> keeps P (call c).
Proof.
  intros H s s' r E. unfold call in E.
  destruct (c (mkState (globals s) [])) as [s1 r1] eqn:Ec. inversion E; subst; simpl.
  destruct (H _ _ _ Ec) as [G1 HP]. simpl in G1. auto.
Qed.

Ltac keeps_step :=
  match goal with
  | |- keeps _ (bind (load _) _) => eapply keeps_bind; [apply keeps_load | intros ? _]
  | |- keeps _ (bind (lift _) _) => eapply keeps_bind; [apply keeps_lift | intros ? _]
  | |- keeps _ (bind (alloc _) _) =>
      eapply keeps_bind; [apply keeps_alloc | intros ? [? ->]]
  | |- keeps _ (ret _) => apply keeps_ret
  | |- keeps _ (raise _) => apply keeps_raise
  | |- keeps _ (store (Local _) _) =>
      eapply keeps_weaken; [apply keeps_store_local | auto]
  | |- keeps _ (bind (store (Local _) _) _) =>
      eapply keeps_bind; [apply keeps_store_local | intros ? _]
  | |- keeps _ (if ?b then _ else _) => destruct b
  end.

Definition local3 (v : view3) : Prop := is_local (v_ref v).

Lemma keeps_read3 v : keeps (fun _ => True) (read3 v).
Proof. unfold read3. repeat keeps_step. auto. Qed.

Lemma keeps_fresh3 a b c cu x : keeps local3 (fresh3 a b c cu x).
Proof. unfold fresh3. repeat keeps_step. now eexists. Qed.

Lemma keeps_contiguous v : keeps (fun _ => True) (contiguous v).
Proof.
  unfold contiguous. keeps_step; [keeps_step; auto|].
  eapply keeps_bind; [apply keeps_read3 | intros ? _].
  eapply keeps_weaken; [apply keeps_fresh3 | auto].
Qed.

Lemma keeps_as_strided v a b c d ta tb tc td :
  keeps (fun _ => True) (as_strided v a b c d ta tb tc td).
Proof. unfold as_strided. repeat keeps_step; auto. Qed.

Lemma keeps_unfold1d v k st : keeps (fun _ => True) (unfold1d v k st).
Proof.
  unfold unfold1d. keeps_step; [keeps_step|].
  eapply keeps_bind; [apply keeps_contiguous | intros ? _].
  eapply keeps_bind; [apply keeps_as_strided | intros ? _]. keeps_step; auto.
Qed.

Section Frame.
Variable log10_pos : positive -> Z -> float.

Lemma keeps_fir_stage m nt data i :
  keeps local3 (fir_stage m nt data i).
Proof.
  unfold fir_stage.
  eapply keeps_bind; [apply keeps_read3 | intros ? _].
  repeat keeps_step. now eexists.
Qed.

Lemma keeps_apply_filter_gpu m data :
  keeps local3 (apply_filter_gpu m data).
Proof.
  unfold apply_filter_gpu.
  eapply keeps_bind; [apply keeps_read3 | intros ? _].
  eapply keeps_bind; [apply keeps_fresh3 | intros d0 L0].
  eapply keeps_bind.
  - apply keeps_foldM with (P := local3); [|exact L0].
    intros; apply keeps_fir_stage.
  - intros d1 L1. keeps_step. exact L1.
Qed.

Lemma keeps_iir_stage data st : keeps local3 (iir_stage data st).
Proof.
  unfold iir_stage. cbv zeta. keeps_step; [keeps_step|].
  eapply keeps_bind; [apply keeps_read3 | intros ? _].
  repeat keeps_step. now eexists.
Qed.

Lemma keeps_apply_filter m data : keeps (fun _ => True) (apply_filter m data).
Proof.
  unfold apply_filter. keeps_step.
  - eapply keeps_weaken; [apply keeps_apply_filter_gpu | auto].
  - unfold apply_filter_cpu.
    generalize data. induction (_filters m) as [|st l IH]; intros d; simpl.
    + now keeps_step.
    + eapply keeps_bind; [apply keeps_iir_stage | intros; apply IH].
Qed.

Lemma keeps_unfold m v : keeps (fun _ => True) (unfold m v).
Proof. unfold unfold. repeat keeps_step. apply keeps_unfold1d. Qed.

Lemma keeps_read4 v : keeps (fun _ => True) (read4 v).
Proof. unfold read4. repeat keeps_step. auto. Qed.

Lemma keeps_block_energies m u : keeps local3 (block_energies m u).
Proof.
  unfold block_energies.
  eapply keeps_bind; [apply keeps_read4 | intros ? _]. apply keeps_fresh3.
Qed.

Lemma keeps_masked_zero z mask : local3 z -> keeps (fun _ => True) (masked_zero z mask).
Proof. intros [n Hn]. unfold masked_zero. rewrite Hn. repeat keeps_step. Qed.

Lemma keeps_replace_eq n x y : keeps (fun _ => True) (replace_eq (Local n) x y).
Proof. unfold replace_eq. repeat keeps_step. Qed.

Lemma keeps_gating Gv nb nch z :
  local3 z -> keeps (fun _ => True) (gating log10_pos Gv nb nch z).
Proof.
  intros Lz. unfold gating.
  eapply keeps_bind; [apply keeps_read3 | intros ? _]. keeps_step.
  eapply keeps_bind; [now apply keeps_masked_zero | intros ? _].
  eapply keeps_bind; [apply keeps_read3 | intros ? _]. keeps_step.
  keeps_step; [keeps_step|].
  eapply keeps_bind; [now apply keeps_masked_zero | intros ? _].
  do 2 keeps_step. keeps_step; [keeps_step|].
  eapply keeps_bind; [now apply keeps_masked_zero | intros ? _].
  eapply keeps_bind; [apply keeps_read3 | intros ? _]. now keeps_step.
Qed.

Lemma keeps_finalize Gv nch B C zag :
  keeps (fun _ => True) (finalize log10_pos Gv nch B C zag).
Proof.
  unfold finalize. keeps_step.
  eapply keeps_bind; [apply keeps_replace_eq | intros ? _].
  eapply keeps_bind; [apply keeps_replace_eq | intros ? _].
  repeat keeps_step. auto.
Qed.

Lemma keeps_unpack3 t : keeps (fun _ => True) (unpack3 t).
Proof.
  unfold unpack3.
  repeat match goal with
         | |- keeps _ (match ?x with _ => _ end) => destruct x
         end; now keeps_step.
Qed.

Lemma keeps_energies m data :
  keeps (fun e => local3 (snd e)) (energies m data).
Proof.
  unfold energies.
  eapply keeps_bind; [apply keeps_unpack3 | intros ? _].
  eapply keeps_bind; [apply keeps_apply_filter | intros ? _]. keeps_step.
  eapply keeps_bind; [apply keeps_unfold | intros ? _].
  eapply keeps_bind; [apply keeps_block_energies | intros z Lz]. now keeps_step.
Qed.

Lemma keeps_gated_energy m data :
  keeps (fun _ => True) (gated_energy log10_pos m data).
Proof.
  unfold gated_energy.
  eapply keeps_bind; [apply keeps_energies | intros [[[Gv nb] nch] z] Lz].
  eapply keeps_bind; [now apply keeps_gating | intros ? _]. now keeps_step.
Qed.

Lemma keeps_integrated_loudness m data :
  keeps (fun _ => True) (integrated_loudness log10_pos m data).
Proof.
  unfold integrated_loudness.
  eapply keeps_bind; [apply keeps_gated_energy | intros [[[Gv z] nch] zag] _].
  apply keeps_finalize.
Qed.

End Frame.

(* ================================================================== *)
(** ** C9: two calls on the same meter and input *)

Section Idempotence.
Variable log10_pos : positive -> Z -> float.

Lemma call_globals_only {A} (c : M A) s1 s2 :
  globals s1 = globals s2 -> snd (call c s1) = snd (call c s2).
Proof.
  intros E. unfold call. rewrite E.
  now destruct (c (mkState (globals s2) [])).
Qed.

(** C9. Calling [integrated_loudness] twice on the same meter and the same
    input gives the same result (value or exception) both times, and
    neither call changes any storage that existed before it: the buffers
    [G], [firs] and [passband_gain] of the meter and the storage of the
    caller's tensor are as they were. *)
Theorem C9_idempotent (m : Meter) (data : tensor) (s : state) :
  let first := call (integrated_loudness log10_pos m data) s in
  let second := call (integrated_loudness log10_pos m data) (fst first) in
  snd second = snd first /\
  globals (fst first) = globals s /\
  globals (fst second) = globals s /\
  lookup (fst second) (G m) = lookup s (G m) /\
  lookup (fst second) (v_ref (firs m)) = lookup s (v_ref (firs m)) /\
  lookup (fst second) (passband_gain m) = lookup s (passband_gain m) /\
  lookup (fst second) (t_ref data) = lookup s (t_ref data).
Proof.
  intros first second.
  assert (K : forall s0, globals (fst (call (integrated_loudness log10_pos m data) s0))
                         = globals s0
                       /\ locals (fst (call (integrated_loudness log10_pos m data) s0))
                          = locals s0).
  { intros s0.
    destruct (call (integrated_loudness log10_pos m data) s0) as [s1 r1] eqn:E.
    split.
    - now destruct (keeps_call (keeps_integrated_loudness log10_pos m data) _ E).
    - unfold call in E.
      destruct (integrated_loudness log10_pos m data (mkState (globals s0) [])).
      now inversion E. }
  destruct (K s) as [G1 L1]. destruct (K (fst first)) as [G2 L2].
  fold first in G1, L1. fold second in G2, L2.
  assert (GG : globals (fst second) = globals s) by congruence.
  assert (LL : locals (fst second) = locals s) by congruence.
  assert (LK : forall r, lookup (fst second) r = lookup s r).
  { intros [n|n]; simpl; congruence. }
  repeat split; auto.
  subst second. apply call_globals_only. exact G1.
Qed.

End Idempotence.

(* ================================================================== *)
(** ** C10: the cache of LoudnessMixin.loudness *)

Section Cache.
Variable log10_pos : positive -> Z -> float.
Variable pyloudnorm_filters : filter_class -> Z -> result (list IIRfilter.t).

(** C10. When a call of [loudness] returns, the value it returns is stored
    in [_loudness]; if nothing was cached before, that value is a tensor
    floored at [MIN_LOUDNESS]. Every later call on a signal carrying this
    cache returns the same value and changes nothing, whatever filter
    class, block size and keyword arguments it is given and whatever the
    signal's samples have become. *)
Theorem C10_cached (self : AudioSignal) fc bs zeros fir s s1 self1 v :
  loudness log10_pos pyloudnorm_filters self fc bs zeros fir s = (s1, Ok (self1, v)) ->
  _loudness self1 = Some v /\
  (_loudness self = None ->
     exists raw, v = map (fun x => fmaximum x (of_int binary32 MIN_LOUDNESS)) raw) /\
  forall audio' rate' fc' bs' zeros' fir' s2,
    loudness log10_pos pyloudnorm_filters (mkSignal audio' rate' (_loudness self1)) fc' bs' zeros' fir' s2
    = (s2, Ok (mkSignal audio' rate' (_loudness self1), v)).
Proof.
  intros H. unfold loudness in H.
  destruct (_loudness self) as [c|] eqn:Ec.
  - inversion H; subst. rewrite Ec. split; [reflexivity|]. split; [discriminate|].
    intros. unfold loudness. simpl. reflexivity.
  - unfold bind in H.
    repeat match type of H with
           | (let (_, _) := ?x in _) = _ => destruct x as [? [?|?]]
           | match ?x with _ => _ end = _ => destruct x as [? [?|?]]
           end; try discriminate.
    all: inversion H; subst; simpl; split; [reflexivity|];
      (split; [intros _; eexists; reflexivity|]);
      intros; unfold loudness; simpl; reflexivity.
Qed.

End Cache.

(** The hypothesis of C10 at a concrete call: half a second of silence at
    20 Hz, measured with K-weighting. *)
Lemma C10_cached_witness :
  _loudness (mkSignal (dense3 (Global 0) 1 1 10 false) 20 (Some [of_int binary32 (-70)]))
  = Some [of_int binary32 (-70)] /\
  (_loudness ex_signal = None ->
     exists raw, [of_int binary32 (-70)]
                 = map (fun x => fmaximum x (of_int binary32 MIN_LOUDNESS)) raw) /\
  forall audio' rate' fc' bs' zeros' fir' s2,
    loudness log10_ref itu_filters
      (mkSignal audio' rate'
         (_loudness (mkSignal (dense3 (Global 0) 1 1 10 false) 20
                              (Some [of_int binary32 (-70)]))))
      fc' bs' zeros' fir' s2
    = (s2, Ok (mkSignal audio' rate'
                 (_loudness (mkSignal (dense3 (Global 0) 1 1 10 false) 20
                                      (Some [of_int binary32 (-70)]))),
               [of_int binary32 (-70)])).
Proof.
  apply (@C10_cached log10_ref itu_filters ex_signal K_weighting (literal 4 10) 4%nat false
           (ex_state (repeat pzero 10))
           (fst (loudness log10_ref itu_filters ex_signal K_weighting (literal 4 10) 4%nat
                          false (ex_state (repeat pzero 10))))).
  vm_compute. reflexivity.
Defined.

(* ================================================================== *)
(** ** Lists built by [tab] and storages read through views *)

Lemma length_tab {A} n (f : nat -> A) : length (tab n f) = n.
Proof. unfold tab. now rewrite length_map, length_seq. Qed.

Lemma nth_tab {A} n (f : nat -> A) i d : i < n -> nth i (tab n f) d = f i.
Proof.
  intros H. unfold tab.
  rewrite (nth_indep _ d (f 0)) by (now rewrite length_map, length_seq).
  rewrite (map_nth f (seq 0 n) 0 i). now rewrite seq_nth.
Qed.

Lemma tab_ext {A} n (f g : nat -> A) :
  (forall i, i < n -> f i = g i) -> tab n f = tab n g.
Proof.
  intros H. unfold tab. apply map_ext_in. intros i Hi.
  apply in_seq in Hi. apply H. lia.
Qed.

Lemma map_tab {A B} (g : A -> B) n (f : nat -> A) :
  map g (tab n f) = tab n (fun i => g (f i)).
Proof. unfold tab. now rewrite map_map. Qed.

Lemma tab_nth {A} (l : list A) d : tab (length l) (fun i => nth i l d) = l.
Proof.
  apply nth_ext with (d := d) (d' := d).
  - apply length_tab.
  - intros i Hi. rewrite length_tab in Hi.
    exact (@nth_tab _ (length l) (fun k => nth k l d) i d Hi).
Qed.

Lemma tab_S {A} n (f : nat -> A) : tab (S n) f = f 0 :: tab n (fun i => f (S i)).
Proof. unfold tab. simpl. f_equal. now rewrite <- seq_shift, map_map. Qed.

(** Rows of equal length laid end to end. *)
Lemma nth_concat_tab {A} a b (g : nat -> nat -> A) i j d :
  i < a -> j < b ->
  nth (i * b + j) (concat (tab a (fun i => tab b (g i)))) d = g i j.
Proof.
  revert g i. induction a as [|a IH]; intros g i Hi Hj; [lia|].
  rewrite tab_S. simpl concat.
  destruct i as [|i].
  - simpl. rewrite app_nth1 by (rewrite length_tab; lia). now apply nth_tab.
  - rewrite app_nth2 by (rewrite length_tab; simpl; lia).
    rewrite length_tab.
    replace (S i * b + j - b) with (i * b + j) by (simpl; lia).
    apply (IH (fun i => g (S i))); lia.
Qed.

Lemma length_concat_tab {A} a b (g : nat -> nat -> A) :
  length (concat (tab a (fun i => tab b (g i)))) = a * b.
Proof.
  revert g. induction a as [|a IH]; intros g; [reflexivity|].
  rewrite tab_S. simpl concat. rewrite length_app, length_tab.
  rewrite (IH (fun i => g (S i))). simpl. lia.
Qed.

Lemma concat_tab_rows {A} a b (g : nat -> nat -> A) :
  concat (tab a (fun i => tab b (g i))) = tab (a * b) (fun q => g (q / b) (q mod b)).
Proof.
  destruct (Nat.eq_dec b 0) as [->|Hb].
  - rewrite Nat.mul_0_r. apply length_zero_iff_nil.
    now rewrite length_concat_tab, Nat.mul_0_r.
  - destruct a as [|a]; [reflexivity|].
    apply nth_ext with (d := g 0 0) (d' := g 0 0).
    + now rewrite length_concat_tab, length_tab.
    + intros q Hq. rewrite length_concat_tab in Hq.
      rewrite (@nth_tab _ (S a * b) (fun q => g (q / b) (q mod b)) q _ Hq).
      rewrite (Nat.div_mod_eq q b) at 1.
      rewrite (Nat.mul_comm b (q / b)).
      apply nth_concat_tab.
      * apply Nat.Div0.div_lt_upper_bound. lia.
      * now apply Nat.mod_upper_bound.
Qed.

Lemma nth_flatten3_tab {A} a b c (g : nat -> nat -> nat -> A) i j p d :
  i < a -> j < b -> p < c ->
  nth ((i * b + j) * c + p)
      (flatten3 (tab a (fun i => tab b (fun j => tab c (g i j))))) d = g i j p.
Proof.
  intros Hi Hj Hp. unfold flatten3.
  rewrite (concat_tab_rows a b (fun i j => tab c (g i j))).
  rewrite (@nth_concat_tab _ (a * b) c (fun q => g (q / b) (q mod b)) (i * b + j) p d);
    [|nia|lia].
  assert (E1 : (i * b + j) / b = i).
  { rewrite Nat.div_add_l by lia. rewrite Nat.div_small by lia. lia. }
  assert (E2 : (i * b + j) mod b = j).
  { rewrite Nat.add_comm, Nat.Div0.mod_add. apply Nat.mod_small; lia. }
  now rewrite E1, E2.
Qed.

Lemma length_flatten3_tab {A} a b c (g : nat -> nat -> nat -> A) :
  length (flatten3 (tab a (fun i => tab b (fun j => tab c (g i j))))) = a * b * c.
Proof.
  unfold flatten3.
  rewrite (concat_tab_rows a b (fun i j => tab c (g i j))).
  apply (length_concat_tab (a * b) c (fun q => g (q / b) (q mod b))).
Qed.

(** ** Store lemmas *)

Lemma lookup_alloc_new s d :
  lookup (fst (alloc d s)) (Local (length (locals s))) = Some d.
Proof. simpl. rewrite nth_error_app2 by lia. now rewrite Nat.sub_diag. Qed.

Lemma lookup_alloc_old s d r x :
  lookup s r = Some x -> lookup (fst (alloc d s)) r = Some x.
Proof.
  destruct r as [n|n]; simpl; auto.
  intros H. rewrite nth_error_app1; auto.
  apply nth_error_Some. congruence.
Qed.

Lemma run_load s r d : lookup s r = Some d -> load r s = (s, Ok d).
Proof. intros H. unfold load. now rewrite H. Qed.

Lemma run_read3 s v d :
  lookup s (v_ref v) = Some d -> read3 v s = (s, Ok (gather3 d v)).
Proof. intros H. unfold read3. erewrite bind_ok; [reflexivity | now apply run_load]. Qed.


(* ================================================================== *)
(** ** unfold1d on a view that stays inside its storage *)

Lemma gather3_elem d v i j k :
  i < sz0 v -> j < sz1 v -> k < sz2 v ->
  nth k (nth j (nth i (gather3 d v) []) []) pzero
  = at_ d (v_off v + i * st0 v + j * st1 v + k * st2 v).
Proof.
  intros Hi Hj Hk. unfold gather3.
  rewrite (@nth_tab _ (sz0 v) _ i [] Hi).
  rewrite (@nth_tab _ (sz1 v) _ j [] Hj).
  now rewrite (@nth_tab _ (sz2 v) _ k pzero Hk).
Qed.

Lemma run_as_strided v s d (a b c e ta tb tc : nat) :
  lookup s (v_ref v) = Some d ->
  (a * b * c * e <> 0 ->
   v_off v + (a - 1) * ta + (b - 1) * tb + (c - 1) * tc + (e - 1) * 1 < length d) ->
  as_strided v (Z.of_nat a) (Z.of_nat b) (Z.of_nat c) (Z.of_nat e)
               (Z.of_nat ta) (Z.of_nat tb) (Z.of_nat tc) 1 s
  = (s, Ok (mkV4 (v_ref v) (v_off v) a b c e ta tb tc 1)).
Proof.
  intros Hd Hb. unfold as_strided.
  replace ((Z.of_nat a <? 0) || (Z.of_nat b <? 0) || (Z.of_nat c <? 0) || (Z.of_nat e <? 0)
           || (Z.of_nat ta <? 0) || (Z.of_nat tb <? 0) || (Z.of_nat tc <? 0) || (1 <? 0))%Z
    with false.
  2:{ symmetry. repeat (apply orb_false_iff; split); apply Z.ltb_ge; lia. }
  erewrite bind_ok by (apply run_load; eassumption).
  rewrite !Nat2Z.id. change (Z.to_nat 1) with 1. cbv zeta.
  cbn [wz0 wz1 wz2 wz3 wt0 wt1 wt2 wt3].
  destruct (a * b * c * e =? 0) eqn:E0; [reflexivity|].
  apply Nat.eqb_neq in E0. specialize (Hb E0).
  apply Nat.ltb_lt in Hb. now rewrite Hb.
Qed.

Lemma is_contiguous_last v :
  is_contiguous v = true -> sz0 v * sz1 v * sz2 v <> 0 -> sz2 v = 1 \/ st2 v = 1.
Proof.
  unfold is_contiguous. intros H N.
  apply orb_true_iff in H. destruct H as [H|H].
  - apply Nat.eqb_eq in H. contradiction.
  - apply andb_true_iff in H. destruct H as [H _].
    apply andb_true_iff in H. destruct H as [H _].
    apply orb_true_iff in H. destruct H as [H|H]; apply Nat.eqb_eq in H; auto.
Qed.

Lemma dense_bound a b c :
  a * b * c <> 0 -> 0 + (a - 1) * (b * c) + (b - 1) * c + (c - 1) * 1 < a * b * c.
Proof.
  destruct a as [|a]; [lia|]. destruct b as [|b]; [lia|]. destruct c as [|c]; [lia|].
  intros _. replace (S a - 1) with a by lia. replace (S b - 1) with b by lia.
  replace (S c - 1) with c by lia. nia.
Qed.

(** [contiguous] gives a contiguous view of the same elements that stays
    inside its storage, and keeps every storage that existed. *)
Lemma run_contiguous v s d :
  lookup s (v_ref v) = Some d -> in_bounds v d ->
  exists s' v' d',
    contiguous v s = (s', Ok v') /\
    globals s' = globals s /\
    (forall r x, lookup s r = Some x -> lookup s' r = Some x) /\
    lookup s' (v_ref v') = Some d' /\
    (sz0 v', sz1 v', sz2 v') = (sz0 v, sz1 v, sz2 v) /\
    is_contiguous v' = true /\ in_bounds v' d' /\
    gather3 d' v' = gather3 d v.
Proof.
  intros Hd Hb. unfold contiguous.
  destruct (is_contiguous v) eqn:IC.
  - exists s, v, d. repeat split; auto.
  - erewrite bind_ok by (apply run_read3; eassumption).
    unfold fresh3.
    set (x := gather3 d v).
    exists (fst (alloc (flatten3 x) s)),
           (dense3 (Local (length (locals s))) (sz0 v) (sz1 v) (sz2 v) (v_cuda v)),
           (flatten3 x).
    assert (N : sz0 v * sz1 v * sz2 v <> 0).
    { unfold is_contiguous in IC. apply orb_false_iff in IC. destruct IC as [IC _].
      now apply Nat.eqb_neq in IC. }
    assert (M1 : Nat.max (sz1 v) 1 = sz1 v) by (destruct (sz1 v); [lia|lia]).
    assert (M2 : Nat.max (sz2 v) 1 = sz2 v) by (destruct (sz2 v); [lia|lia]).
    split; [reflexivity|]. split; [reflexivity|].
    split; [intros r y Hr; now apply lookup_alloc_old|].
    split; [apply lookup_alloc_new|].
    split; [reflexivity|].
    split.
    { unfold is_contiguous, dense3. simpl. rewrite M1, M2.
      rewrite !Nat.eqb_refl. rewrite !orb_true_r. reflexivity. }
    split.
    { unfold in_bounds, dense3. simpl. intros _. rewrite M1, M2.
      subst x. unfold gather3. rewrite length_flatten3_tab. now apply dense_bound. }
    subst x. unfold gather3 at 1. unfold dense3. simpl. rewrite M1, M2.
    unfold gather3.
    apply tab_ext; intros i Hi. apply tab_ext; intros j Hj. apply tab_ext; intros k Hk.
    replace (i * (sz1 v * sz2 v) + j * sz2 v + k * 1)
      with ((i * sz1 v + j) * sz2 v + k) by nia.
    exact (@nth_flatten3_tab _ (sz0 v) (sz1 v) (sz2 v)
             (fun i j k => at_ d (v_off v + i * st0 v + j * st1 v + k * st2 v))
             i j k pzero Hi Hj Hk).
Qed.

Lemma n_blocks_fit len ks stride :
  ks <= len -> (n_blocks len ks stride - 1) * stride + ks <= len.
Proof.
  intros H. unfold n_blocks.
  replace ((len - ks) / stride + 1 - 1) with ((len - ks) / stride) by lia.
  pose proof (Nat.Div0.mul_div_le (len - ks) stride). nia.
Qed.

Lemma n_frames_Z len ks stride :
  ks <= len ->
  ((Z.max (Z.of_nat len) (Z.of_nat ks) - Z.of_nat ks) / Z.of_nat stride + 1)%Z
  = Z.of_nat (n_blocks len ks stride).
Proof.
  intros H. unfold n_blocks.
  rewrite Z.max_l by lia.
  rewrite Nat2Z.inj_add, Nat2Z.inj_div, Nat2Z.inj_sub by lia. reflexivity.
Qed.

(** What [unfold1d] returns when at least one block fits: the view of shape
    (d0, d1, kernel_size, n_frames) whose entry [i][j][k][f] is sample
    [f * stride + k] of row [i][j] of the input. *)
Lemma run_unfold1d v ks stride s d :
  lookup s (v_ref v) = Some d -> in_bounds v d ->
  1 <= ks <= sz2 v -> 1 <= stride ->
  exists s' w d',
    unfold1d v (Z.of_nat ks) (Z.of_nat stride) s = (s', Ok w) /\
    globals s' = globals s /\
    (forall r x, lookup s r = Some x -> lookup s' r = Some x) /\
    lookup s' (w_ref w) = Some d' /\
    (wz0 w, wz1 w, wz2 w, wz3 w)
    = (sz0 v, sz1 v, ks, n_blocks (sz2 v) ks stride) /\
    gather4 d' w
    = map (map (windows ks stride (n_blocks (sz2 v) ks stride))) (gather3 d v).
Proof.
  intros Hd Hb Hks Hst.
  set (nf := n_blocks (sz2 v) ks stride).
  set (tgt := (nf - 1) * stride + ks).
  assert (Hnf : 1 <= nf) by (unfold nf, n_blocks; lia).
  assert (Htgt : tgt <= sz2 v) by (apply n_blocks_fit; lia).
  assert (Htgt1 : 1 <= tgt) by (unfold tgt; nia).
  unfold unfold1d. cbv zeta.
  destruct (Z.of_nat stride =? 0)%Z eqn:E0; [apply Z.eqb_eq in E0; lia|].
  rewrite n_frames_Z by lia. fold nf.
  replace ((Z.of_nat nf - 1) * Z.of_nat stride + Z.of_nat ks)%Z with (Z.of_nat tgt)
    by (unfold tgt; rewrite Nat2Z.inj_add, Nat2Z.inj_mul, Nat2Z.inj_sub by lia; lia).
  set (v1 := slice_last v (Z.of_nat tgt)).
  assert (S1 : sz2 v1 = tgt).
  { unfold v1, slice_last, py_stop. simpl.
    destruct (Z.of_nat tgt <? 0)%Z eqn:E; [apply Z.ltb_lt in E; lia|].
    rewrite Nat2Z.id. lia. }
  assert (Hb1 : in_bounds v1 d).
  { unfold in_bounds. rewrite S1. unfold v1, slice_last. simpl. intros N.
    assert (N' : sz0 v * sz1 v * sz2 v <> 0) by nia.
    specialize (Hb N').
    assert ((tgt - 1) * st2 v <= (sz2 v - 1) * st2 v) by (apply Nat.mul_le_mono_r; lia).
    lia. }
  destruct (@run_contiguous v1 s d Hd Hb1)
    as (s1 & v2 & d2 & R1 & G1 & K1 & L2 & SZ & IC & Hb2 & GA).
  erewrite bind_ok by exact R1.
  assert (Z0 : sz0 v2 = sz0 v) by (change (sz0 v) with (sz0 v1); congruence).
  assert (Z1 : sz1 v2 = sz1 v) by (change (sz1 v) with (sz1 v1); congruence).
  assert (Z2 : sz2 v2 = tgt) by (rewrite <- S1; congruence).
  assert (Bound : sz0 v2 * sz1 v2 * nf * ks <> 0 ->
                  v_off v2 + (sz0 v2 - 1) * st0 v2 + (sz1 v2 - 1) * st1 v2
                  + (nf - 1) * stride + (ks - 1) * 1 < length d2).
  { intros N.
    assert (N2 : sz0 v2 * sz1 v2 * sz2 v2 <> 0) by (rewrite Z2; nia).
    specialize (Hb2 N2). rewrite Z2 in Hb2.
    destruct (is_contiguous_last v2 IC N2) as [C|C]; rewrite ?Z2 in C.
    - assert (nf = 1 /\ ks = 1) as [-> ->] by (unfold tgt in C; nia). lia.
    - rewrite C in Hb2. unfold tgt in Hb2. lia. }
  erewrite bind_ok by (apply (@run_as_strided v2 s1 d2 _ _ _ _ _ _ _ L2 Bound)).
  exists s1, (transpose_last (mkV4 (v_ref v2) (v_off v2) (sz0 v2) (sz1 v2) nf ks
                                   (st0 v2) (st1 v2) stride 1)), d2.
  split; [reflexivity|]. split; [exact G1|]. split; [exact K1|].
  split; [exact L2|]. split; [simpl; congruence|].
  unfold gather4, transpose_last. simpl.
  rewrite Z0, Z1. unfold gather3 at 1. rewrite !map_tab.
  apply tab_ext; intros i Hi. rewrite map_tab.
  apply tab_ext; intros j Hj. unfold windows.
  apply tab_ext; intros k Hk. apply tab_ext; intros f Hf.
  assert (P : f * stride + k < tgt) by (unfold tgt; nia).
  rewrite (@nth_tab _ (sz2 v) _ (f * stride + k) pzero) by lia.
  (* the same element, read from the view before [contiguous] *)
  assert (E : at_ d2 (v_off v2 + i * st0 v2 + j * st1 v2 + (f * stride + k) * st2 v2)
              = at_ d (v_off v + i * st0 v + j * st1 v + (f * stride + k) * st2 v)).
  { rewrite <- (@gather3_elem d2 v2 i j (f * stride + k)) by lia.
    rewrite GA.
    rewrite (@gather3_elem d v1 i j (f * stride + k))
      by (rewrite ?S1; unfold v1, slice_last; simpl; lia).
    reflexivity. }
  rewrite <- E.
  assert (N2 : sz0 v2 * sz1 v2 * sz2 v2 <> 0).
  { rewrite Z0, Z1, Z2.
    apply Nat.neq_mul_0; split; [apply Nat.neq_mul_0; split|]; lia. }
  destruct (is_contiguous_last v2 IC N2) as [C|C]; rewrite ?Z2 in C.
  - assert (f = 0 /\ k = 0) as [-> ->] by nia. f_equal; lia.
  - rewrite C. f_equal; lia.
Qed.

Lemma in_bounds_permute v d : in_bounds v d -> in_bounds (permute021 v) d.
Proof.
  unfold in_bounds, permute021. simpl. intros H N.
  assert (N' : sz0 v * sz1 v * sz2 v <> 0) by nia. specialize (H N'). lia.
Qed.

Definition step_ : float := fsub binary64 f64_one (literal 75 100).

(** [Meter.unfold] when at least one block fits. *)
Lemma run_unfold (m : Meter) v ks stride s d :
  lookup s (v_ref v) = Some d -> in_bounds v d ->
  py_int (block_samples m) = Ok (Z.of_nat ks) ->
  py_int (fmul binary64 (block_samples m) step_) = Ok (Z.of_nat stride) ->
  1 <= ks <= sz1 v -> 1 <= stride ->
  exists s' w d',
    unfold m v s = (s', Ok w) /\
    globals s' = globals s /\
    (forall r x, lookup s r = Some x -> lookup s' r = Some x) /\
    lookup s' (w_ref w) = Some d' /\
    (wz0 w, wz1 w, wz2 w, wz3 w)
    = (sz0 v, sz2 v, ks, n_blocks (sz1 v) ks stride) /\
    gather4 d' w
    = map (map (windows ks stride (n_blocks (sz1 v) ks stride)))
          (gather3 d (permute021 v)).
Proof.
  intros Hd Hb K1 K2 Hks Hst.
  unfold unfold. cbv zeta. fold step_. rewrite K1, K2.
  unfold lift at 1. unfold bind at 1. unfold lift at 1. unfold bind at 1.
  apply (@run_unfold1d (permute021 v) ks stride s d); auto.
  now apply in_bounds_permute.
Qed.

(* ================================================================== *)
(** ** C3: what Meter.unfold produces *)

Lemma py_int_integer_part x k :
  py_int x = Ok k -> (0 <= k)%Z -> fle pzero x = true -> integer_part x k.
Proof.
  destruct x as [s| s | | s m e]; simpl; try discriminate.
  - intros H _ _. now inversion H.
  - intros H Hk Hx. destruct s; [discriminate Hx|].
    inversion H as [E]. simpl. split; intros He.
    + now rewrite Z.shiftl_mul_pow2.
    + rewrite Z.shiftl_div_pow2 by lia.
      pose proof (Z.pow_pos_nonneg 2 (- e) ltac:(lia) ltac:(lia)) as P.
      pose proof (Z.mul_div_le (Zpos m) (2 ^ (- e)) P) as L1.
      pose proof (Z.mul_succ_div_gt (Zpos m) (2 ^ (- e)) P) as L2.
      unfold Z.succ in L2.
      rewrite (Z.mul_comm (Zpos m / 2 ^ (- e))), (Z.mul_comm (Zpos m / 2 ^ (- e) + 1)).
      now split.
Qed.

(** At 19 Hz a block of 0.4 s is 7.6 samples: the meter takes 7 where the
    specification rounds to 8, and the blocks come out as
    (batch, channel, sample in block, block). *)
Lemma C3_counterexample :
  match ex_meter_at 19 K_weighting false (repeat pzero 10) with
  | (s, Ok m) => ~ unfold_as_specified m (dense3 (Global 0) 1 10 1 false) s
  | (_, Raise _) => False
  end.
Proof.
  destruct (ex_meter_at 19 K_weighting false (repeat pzero 10)) as [s [m|e]] eqn:E;
    [|vm_compute in E; discriminate].
  vm_compute in E. inversion E; subst; clear E.
  intros (bl & st & s' & w & R1 & R2 & U & SH).
  match type of R1 with ?l = _ =>
    assert (P1 : l = Ok 8%Z) by (vm_compute; reflexivity) end.
  rewrite P1 in R1. inversion R1 as [B].
  vm_compute in U. inversion U; subst w. clear U.
  apply (f_equal snd) in SH. simpl in SH. lia.
Qed.

Lemma n_blocks_tight len ks stride :
  ks <= len -> 1 <= stride -> len < n_blocks len ks stride * stride + ks.
Proof.
  intros H Hs. unfold n_blocks.
  pose proof (Nat.div_mod_eq (len - ks) stride) as DM.
  pose proof (Nat.mod_upper_bound (len - ks) stride ltac:(lia)) as MB. nia.
Qed.

(** C3 (amended). [Meter.unfold] takes as block length the integer part of
    [T_g * rate] and as stride the integer part of [T_g * rate * 0.25]
    ([int(...)], no rounding). When these are [ks >= 1] and [stride >= 1]
    and the input has at least [ks] samples, it returns a view of shape
    (batch, channel, ks, n_blocks) with n_blocks = (nt - ks) // stride + 1:
    entry [b][c][k][f] is sample [f * stride + k] of channel [c] of signal
    [b], the blocks lie inside the input, and the samples after the last
    block are too few for another one. *)
Theorem C3_unfold_blocks (m : Meter) (input_data : view3) (s : state) (d : storage)
    (ks stride : nat) :
  lookup s (v_ref input_data) = Some d -> in_bounds input_data d ->
  py_int (block_samples m) = Ok (Z.of_nat ks) ->
  py_int (fmul binary64 (block_samples m) (fsub binary64 f64_one (literal 75 100)))
  = Ok (Z.of_nat stride) ->
  fle pzero (block_samples m) = true ->
  1 <= ks <= sz1 input_data -> 1 <= stride ->
  let nf := n_blocks (sz1 input_data) ks stride in
  integer_part (block_samples m) (Z.of_nat ks) /\
  (nf - 1) * stride + ks <= sz1 input_data < nf * stride + ks /\
  exists s' w d',
    unfold m input_data s = (s', Ok w) /\
    lookup s' (w_ref w) = Some d' /\
    (wz0 w, wz1 w, wz2 w, wz3 w) = (sz0 input_data, sz2 input_data, ks, nf) /\
    forall b c k f,
      b < sz0 input_data -> c < sz2 input_data -> k < ks -> f < nf ->
      nth f (nth k (nth c (nth b (gather4 d' w) []) []) []) pzero
      = nth c (nth (f * stride + k) (nth b (gather3 d input_data) []) []) pzero.
Proof.
  intros Hd Hb K1 K2 Pos Hks Hst nf.
  split; [apply py_int_integer_part; auto; lia|].
  split; [split; [apply n_blocks_fit; lia | apply n_blocks_tight; lia]|].
  destruct (@run_unfold m input_data ks stride s d Hd Hb K1 K2 Hks Hst)
    as (s' & w & d' & R & _ & _ & L & SZ & GA).
  exists s', w, d'. repeat split; auto.
  intros b c k f Hb' Hc Hk Hf. rewrite GA. fold nf.
  unfold gather3 at 1. simpl. rewrite !map_tab.
  rewrite (@nth_tab _ (sz0 input_data) _ b [] Hb'). rewrite map_tab.
  rewrite (@nth_tab _ (sz2 input_data) _ c [] Hc). unfold windows.
  rewrite (@nth_tab _ ks _ k [] Hk). rewrite (@nth_tab _ nf _ f pzero Hf).
  assert (P : f * stride + k < sz1 input_data).
  { pose proof (@n_blocks_fit (sz1 input_data) ks stride ltac:(lia)). fold nf in H. nia. }
  rewrite (@nth_tab _ (sz1 input_data) _ (f * stride + k) pzero P).
  rewrite gather3_elem by lia. f_equal. lia.
Qed.

(** The hypotheses of C3 hold for ten samples at 20 Hz: two blocks of 8
    samples, 2 apart. *)
Lemma C3_unfold_blocks_witness :
  exists s' w, unfold ex_custom_meter (dense3 (Global 0) 1 10 1 false)
                      (ex_state ex_square_wave) = (s', Ok w) /\
               (wz0 w, wz1 w, wz2 w, wz3 w) = (1, 1, 8, 2).
Proof.
  destruct (@C3_unfold_blocks ex_custom_meter (dense3 (Global 0) 1 10 1 false)
              (ex_state ex_square_wave) ex_square_wave 8 2)
    as (_ & _ & s' & w & d' & R & _ & SZ & _).
  - reflexivity.
  - unfold in_bounds. vm_compute. lia.
  - vm_compute. reflexivity.
  - vm_compute. reflexivity.
  - vm_compute. reflexivity.
  - simpl. lia.
  - lia.
  - exists s', w. split; [exact R | exact SZ].
Defined.

(* ================================================================== *)
(** ** C1: the two filtering strategies on two channels *)

(** C1 at one signal of ten samples and two channels: the FIR strategy
    returns data of shape (2, 10, 1) where the direct strategy returns
    (1, 10, 2); [integrated_loudness] then fails at [Gamma_r.expand] with
    the FIR strategy and returns a value with the direct one. *)
Lemma C1_fir_two_channels :
  let x := dense3 (Global 0) 1 10 2 false in
  let d := firstn 20 ex_square_wave in
  match ex_meter K_weighting true d with
  | (s, Ok m) =>
    (exists s1 v, apply_filter_gpu m x s = (s1, Ok v)
                  /\ (sz0 v, sz1 v, sz2 v) = (2, 10, 1)) /\
    (exists s1 v, apply_filter_cpu m x s = (s1, Ok v)
                  /\ (sz0 v, sz1 v, sz2 v) = (1, 10, 2)) /\
    snd (call (integrated_loudness log10_ref m (tensor_of x)) s)
    = Raise (RuntimeError, AtExpand)
  | (_, Raise _) => False
  end /\
  exists v, ex_loudness K_weighting false (contiguous_dims 1 10 2) d = Ok [v].
Proof.
  cbv zeta. split.
  - destruct (ex_meter K_weighting true (firstn 20 ex_square_wave)) as [s [m|e]] eqn:E;
      [|vm_compute in E; discriminate].
    vm_compute in E. inversion E; subst; clear E.
    split; [|split].
    + eexists _, _. split; [vm_compute; reflexivity | reflexivity].
    + eexists _, _. split; [vm_compute; reflexivity | reflexivity].
    + vm_compute. reflexivity.
  - eexists. vm_compute. reflexivity.
Qed.

(* ================================================================== *)
(** ** C4 and C5: inputs of the wrong shape *)


(** Five samples where a block has eight: [as_strided] raises. *)
Lemma C5_counterexample :
  match ex_meter K_weighting false (repeat pzero 5) with
  | (s, Ok m) => ~ short_input_passes log10_ref m (dense3 (Global 0) 1 5 1 false) s
  | (_, Raise _) => False
  end.
Proof.
  destruct (ex_meter K_weighting false (repeat pzero 5)) as [s [m|e]] eqn:E;
    [|vm_compute in E; discriminate].
  vm_compute in E. inversion E; subst; clear E.
  intros H. destruct (H 8%Z) as [vs [Hv _]].
  - vm_compute. reflexivity.
  - simpl. lia.
  - simpl. lia.
  - vm_compute in Hv. discriminate.
Qed.

(* ================================================================== *)
(** ** The direct filtering strategy *)

Lemma length_lfilter_loop f b0 b1 b2 a1 a2 xs :
  forall x1 x2 y1 y2,
    length (lfilter_loop f b0 b1 b2 a1 a2 x1 x2 y1 y2 xs) = length xs.
Proof. induction xs as [|x xs IH]; intros; simpl; [reflexivity | now rewrite IH]. Qed.

Lemma length_lfilter f a b xs : length (lfilter f a b xs) = length xs.
Proof.
  unfold lfilter. destruct a as [[a0 a1] a2]. destruct b as [[b0 b1] b2].
  apply length_lfilter_loop.
Qed.

Lemma rect3_tab3 {A} a b c (g : nat -> nat -> nat -> A) :
  rect3 a b c (tab a (fun i => tab b (fun j => tab c (g i j)))).
Proof.
  split; [apply length_tab|].
  apply Forall_forall. intros p Hp. unfold tab in Hp. apply in_map_iff in Hp.
  destruct Hp as (i & <- & _). split; [apply length_tab|].
  apply Forall_forall. intros r Hr. fold (tab b (fun j => tab c (g i j))) in Hr.
  unfold tab in Hr. apply in_map_iff in Hr. destruct Hr as (j & <- & _).
  apply length_tab.
Qed.

Lemma rect3_gather3 d v : rect3 (sz0 v) (sz1 v) (sz2 v) (gather3 d v).
Proof. unfold gather3. apply rect3_tab3. Qed.

Lemma rect3_map {A B} a b c (x : list (list (list A))) (f : list A -> list B) :
  (forall r, length (f r) = length r) ->
  rect3 a b c x -> rect3 a b c (map (map f) x).
Proof.
  intros Hf [L F]. split; [now rewrite length_map|].
  apply Forall_map. eapply Forall_impl; [|exact F].
  intros p [Lp Fp]. split; [now rewrite length_map|].
  apply Forall_map. eapply Forall_impl; [|exact Fp].
  intros r Lr. now rewrite Hf.
Qed.

Lemma rect3_iir_rows st a b c y : rect3 a b c y -> rect3 a b c (iir_rows st y).
Proof.
  intros H. unfold iir_rows, map3.
  apply rect3_map; [intros; apply length_map|].
  apply rect3_map; [intros; apply length_lfilter|]. exact H.
Qed.


(** A nested list of shape (a, b, c) is the table of its entries. *)
Lemma rect3_as_tab {A} (d : A) a b c x :
  rect3 a b c x ->
  x = tab a (fun i => tab b (fun j => tab c (fun k => nth k (nth j (nth i x []) []) d))).
Proof.
  intros [L F]. rewrite Forall_forall in F.
  rewrite <- (tab_nth x []) at 1. rewrite L.
  apply tab_ext. intros i Hi.
  assert (Hin : In (nth i x []) x) by (apply nth_In; lia).
  destruct (F _ Hin) as [Lp Fp]. rewrite Forall_forall in Fp.
  rewrite <- (tab_nth (nth i x []) []) at 1. rewrite Lp.
  apply tab_ext. intros j Hj.
  assert (Hin2 : In (nth j (nth i x []) []) (nth i x [])) by (apply nth_In; lia).
  rewrite <- (tab_nth (nth j (nth i x []) []) d) at 1. now rewrite (Fp _ Hin2).
Qed.

Lemma length_concat_uniform {A} (xs : list (list A)) n :
  Forall (fun r => length r = n) xs -> length (concat xs) = length xs * n.
Proof.
  induction 1 as [|r xs Hr _ IH]; simpl; [reflexivity|].
  rewrite length_app, IH, Hr. lia.
Qed.

Lemma length_flatten3_rect {A} a b c (x : list (list (list A))) :
  rect3 a b c x -> length (flatten3 x) = a * b * c.
Proof.
  intros [L F]. unfold flatten3.
  rewrite (@length_concat_uniform _ (concat x) c).
  - rewrite (@length_concat_uniform _ x b); [now rewrite L|].
    eapply Forall_impl; [|exact F]. now intros p [Lp _].
  - apply Forall_concat. eapply Forall_impl; [|exact F]. now intros p [_ Fp].
Qed.

Lemma gather3_dense (r : ref) a b c cu (x : list (list (list float))) :
  rect3 a b c x -> gather3 (flatten3 x) (dense3 r a b c cu) = x.
Proof.
  intros H. rewrite (rect3_as_tab pzero H) at 2.
  unfold gather3, dense3. simpl.
  apply tab_ext; intros i Hi. apply tab_ext; intros j Hj. apply tab_ext; intros k Hk.
  rewrite (rect3_as_tab pzero H) at 1.
  replace (i * (Nat.max b 1 * Nat.max c 1) + j * Nat.max c 1 + k * 1)
    with ((i * b + j) * c + k) by (rewrite !Nat.max_l by lia; nia).
  exact (@nth_flatten3_tab _ a b c
           (fun i j k => nth k (nth j (nth i x []) []) pzero) i j k pzero Hi Hj Hk).
Qed.

Lemma permute021_twice v : permute021 (permute021 v) = v.
Proof. now destruct v. Qed.

Lemma in_bounds_dense r a b c cu d :
  length d = a * b * c -> in_bounds (dense3 r a b c cu) d.
Proof.
  intros L. unfold in_bounds, dense3. simpl. intros N. rewrite L.
  rewrite !Nat.max_l by (destruct b, c; lia).
  pose proof (dense_bound a b c N). lia.
Qed.

Lemma run_iir_stage data st s d :
  lookup s (v_ref data) = Some d -> 1 <= sz1 data ->
  iir_stage data st s
  = (fst (alloc (flatten3 (iir_rows st (gather3 d (permute021 data)))) s),
     Ok (permute021 (dense3 (Local (length (locals s)))
                            (sz0 data) (sz2 data) (sz1 data) (v_cuda data)))).
Proof.
  intros Hd Hn. unfold iir_stage. cbv zeta.
  destruct (sz1 data =? 0) eqn:E; [apply Nat.eqb_eq in E; lia|].
  erewrite bind_ok by (apply run_read3; exact Hd). reflexivity.
Qed.

(** The direct strategy does not raise on a view of at least one sample
    inside its storage. It returns data of the same shape whose entries
    are the cascade of the stages applied to each (signal, channel) row;
    after at least one stage the data fill a storage of their own. *)
Lemma run_apply_filter_cpu stages : forall data s d,
  lookup s (v_ref data) = Some d -> in_bounds data d -> 1 <= sz1 data ->
  exists s' v' d',
    foldM iir_stage stages data s = (s', Ok v') /\
    globals s' = globals s /\
    (forall r x, lookup s r = Some x -> lookup s' r = Some x) /\
    lookup s' (v_ref v') = Some d' /\
    in_bounds v' d' /\
    (sz0 v', sz1 v', sz2 v') = (sz0 data, sz1 data, sz2 data) /\
    gather3 d' (permute021 v') = iir_cascade stages (gather3 d (permute021 data)) /\
    (stages <> [] ->
     exists n cu, v' = permute021 (dense3 (Local n) (sz0 data) (sz2 data) (sz1 data) cu)
               /\ length d' = sz0 data * sz2 data * sz1 data).
Proof.
  induction stages as [|st l IH]; intros data s d Hd Hb Hn.
  - exists s, data, d. simpl. repeat split; auto. intros C; now elim C.
  - set (y := iir_rows st (gather3 d (permute021 data))).
    set (s1 := fst (alloc (flatten3 y) s)).
    set (v1 := permute021 (dense3 (Local (length (locals s)))
                                  (sz0 data) (sz2 data) (sz1 data) (v_cuda data))).
    assert (Ry : rect3 (sz0 data) (sz2 data) (sz1 data) y).
    { apply rect3_iir_rows. apply (rect3_gather3 d (permute021 data)). }
    assert (Ly : length (flatten3 y) = sz0 data * sz2 data * sz1 data)
      by (now apply length_flatten3_rect).
    assert (L1 : lookup s1 (v_ref v1) = Some (flatten3 y)) by apply lookup_alloc_new.
    assert (B1 : in_bounds v1 (flatten3 y)).
    { apply in_bounds_permute. now apply in_bounds_dense. }
    destruct (IH v1 s1 (flatten3 y) L1 B1 Hn)
      as (s' & v' & d' & R & G1 & K & L' & B' & SZ & GA & EX).
    exists s', v', d'.
    split. { simpl foldM. erewrite bind_ok by (apply run_iir_stage; [exact Hd | exact Hn]).
            exact R. }
    split; [exact G1|].
    split. { intros r x Hr. apply K. now apply lookup_alloc_old. }
    split; [exact L'|]. split; [exact B'|].
    split; [exact SZ|].
    split.
    { rewrite GA. unfold v1. rewrite permute021_twice.
      rewrite gather3_dense by exact Ry. reflexivity. }
    intros _. destruct l as [|st2 l'].
    + simpl in R. inversion R; subst. exists (length (locals s)), (v_cuda data).
      split; [reflexivity|]. rewrite L1 in L'. inversion L'; subst. exact Ly.
    + destruct EX as (n & cu & Ev & Ld); [discriminate|].
      exists n, cu. split; [exact Ev | exact Ld].
Qed.

(* ================================================================== *)
(** ** C5: an input shorter than one block *)

Lemma is_contiguous_dense r a b c cu :
  1 <= b -> 1 <= c -> is_contiguous (dense3 r a b c cu) = true.
Proof.
  intros Hb Hc. unfold is_contiguous, dense3. simpl.
  rewrite !Nat.max_l by lia. rewrite !Nat.eqb_refl. now rewrite !orb_true_r.
Qed.

(** [unfold1d] on a tensor that fills its storage and is shorter than the
    kernel: one frame of [kernel_size] samples is asked of rows of fewer
    samples, and [as_strided] refuses it. *)
Lemma run_unfold1d_short r a b c cu ks stride s d :
  lookup s r = Some d -> length d = a * b * c ->
  1 <= a -> 1 <= b -> 1 <= c ->
  (Z.of_nat c < ks)%Z -> (0 < stride)%Z ->
  unfold1d (dense3 r a b c cu) ks stride s = (s, Raise (RuntimeError, AtAsStrided)).
Proof.
  intros Hd Ld Ha Hb Hc Hks Hst. unfold unfold1d. cbv zeta.
  destruct (stride =? 0)%Z eqn:E0; [apply Z.eqb_eq in E0; lia|].
  replace (sz2 (dense3 r a b c cu)) with c by reflexivity.
  replace ((Z.max (Z.of_nat c) ks - ks) / stride + 1)%Z with 1%Z
    by (rewrite Z.max_r, Z.sub_diag, Z.div_0_l by lia; reflexivity).
  replace ((1 - 1) * stride + ks)%Z with ks by lia.
  assert (SL : slice_last (dense3 r a b c cu) ks = dense3 r a b c cu).
  { unfold slice_last, dense3, py_stop. simpl.
    destruct (ks <? 0)%Z eqn:E; [apply Z.ltb_lt in E; lia|].
    f_equal. lia. }
  rewrite SL. unfold contiguous. rewrite is_contiguous_dense by lia.
  unfold ret at 1. unfold bind at 1.
  erewrite bind_raise; [reflexivity|].
  unfold as_strided.
  replace ((Z.of_nat (sz0 (dense3 r a b c cu)) <? 0)
           || (Z.of_nat (sz1 (dense3 r a b c cu)) <? 0) || (1 <? 0) || (ks <? 0)
           || (Z.of_nat (st0 (dense3 r a b c cu)) <? 0)
           || (Z.of_nat (st1 (dense3 r a b c cu)) <? 0) || (stride <? 0) || (1 <? 0))%Z
    with false.
  2:{ symmetry. repeat (apply orb_false_iff; split); apply Z.ltb_ge; lia. }
  erewrite bind_ok by (apply run_load; exact Hd).
  cbv zeta. cbn [wz0 wz1 wz2 wz3 wt0 wt1 wt2 wt3 v_off v_ref].
  unfold dense3. cbn [sz0 sz1 sz2 st0 st1 st2 v_off].
  rewrite !Nat2Z.id. change (Z.to_nat 1) with 1.
  rewrite !Nat.max_l by lia.
  destruct (a * b * 1 * Z.to_nat ks =? 0) eqn:E1.
  { apply Nat.eqb_eq in E1. nia. }
  destruct (0 + (a - 1) * (b * c) + (b - 1) * c + (1 - 1) * Z.to_nat stride
            + (Z.to_nat ks - 1) * 1 <? length d) eqn:E2; [|reflexivity].
  apply Nat.ltb_lt in E2. rewrite Ld in E2.
  assert (c + 1 <= Z.to_nat ks) by lia.
  destruct a as [|a']; [lia|]. destruct b as [|b']; [lia|].
  replace (S a' - 1) with a' in E2 by lia. replace (S b' - 1) with b' in E2 by lia.
  nia.
Qed.

Section ShortInput.
Variable log10_pos : positive -> Z -> float.

Lemma energies_rank3 m input s :
  energies m (tensor_of input) s
  = (input_data <- apply_filter m input ;;
     Gv <- load (G m) ;;
     unfolded <- unfold m input_data ;;
     z <- block_energies m unfolded ;;
     ret (Gv, sz0 input, sz2 input, z)) s.
Proof. destruct input. reflexivity. Qed.

Lemma snd_bind_raise {A B} (c : M A) (k : A -> M B) s e :
  snd (c s) = Raise e -> snd (bind c k s) = Raise e.
Proof. unfold bind. destruct (c s) as [s' [a|e']]; simpl; congruence. Qed.

(** C5 (amended). With the direct strategy and at least one filter stage,
    an input batch of at least one signal, one channel and one sample but
    fewer samples than one gating block is not measured, and no NaN or
    zero result is passed through: the call raises the RuntimeError of
    [as_strided] (line 24), after the filter has run. The block length and
    the stride are those of a tensor, within int64. *)
Theorem C5_short_input_raises (m : Meter) (input : view3) (s : state)
    (d Gv : storage) (ks stride : Z) :
  use_fir m = false -> v_cuda input = false -> _filters m <> [] ->
  lookup s (v_ref input) = Some d -> in_bounds input d ->
  lookup s (G m) = Some Gv ->
  py_int (block_samples m) = Ok ks ->
  py_int (fmul binary64 (block_samples m) (fsub binary64 f64_one (literal 75 100)))
  = Ok stride ->
  1 <= sz0 input -> 1 <= sz1 input -> 1 <= sz2 input ->
  (Z.of_nat (sz1 input) < ks)%Z -> (0 < stride)%Z ->
  (ks <= int64_max)%Z -> (stride <= int64_max)%Z ->
  (exists s1 v, apply_filter m input s = (s1, Ok v)) /\
  snd (integrated_loudness log10_pos m (tensor_of input) s)
  = Raise (RuntimeError, AtAsStrided).
Proof.
  intros Hfir Hcu Hst Hd Hb HG K1 K2 H0 H1 H2 Hks Hstride Hk64 Hs64.
  assert (AF : apply_filter m input = foldM iir_stage (_filters m) input).
  { unfold apply_filter. now rewrite Hcu, Hfir. }
  destruct (@run_apply_filter_cpu (_filters m) input s d Hd Hb H1)
    as (s1 & v1 & d1 & R & _ & K & L1 & B1 & SZ & _ & EX).
  destruct (EX Hst) as (n & cu & Ev & Ld).
  split; [exists s1, v1; now rewrite AF|].
  unfold integrated_loudness, gated_energy.
  apply snd_bind_raise. apply snd_bind_raise.
  rewrite energies_rank3, AF.
  erewrite bind_ok by exact R.
  erewrite bind_ok by (apply run_load; apply K; exact HG).
  apply snd_bind_raise.
  unfold unfold. cbv zeta. rewrite K1, K2.
  unfold lift at 1. unfold bind at 1. unfold lift at 1. unfold bind at 1.
  rewrite Ev, permute021_twice.
  rewrite (@run_unfold1d_short (Local n) (sz0 input) (sz2 input) (sz1 input) cu
             ks stride s1 d1); auto.
  rewrite Ev in L1. exact L1.
Qed.

End ShortInput.

(** The hypotheses of C5 hold for five samples of silence at 20 Hz, where
    a block has eight samples. *)
Lemma C5_short_input_raises_witness :
  snd (integrated_loudness log10_ref
         (mkMeter 20 (literal 4 10) false [itu_high_pass] (Global 1)
                  (dense3 (Global 2) 1 1 4 false) (Global 3))
         (tensor_of (dense3 (Global 0) 1 5 1 false))
         (mkState [repeat pzero 5;
                   [f64_one; f64_one; f64_one; literal 141 100; literal 141 100];
                   repeat pzero 4; [f64_one]] []))
  = Raise (RuntimeError, AtAsStrided).
Proof.
  refine (proj2 (@C5_short_input_raises log10_ref _ _ _ (repeat pzero 5)
             [f64_one; f64_one; f64_one; literal 141 100; literal 141 100]
             8%Z 2%Z _ _ _ _ _ _ _ _ _ _ _ _ _ _ _)).
  - reflexivity.
  - reflexivity.
  - discriminate.
  - reflexivity.
  - unfold in_bounds. vm_compute. lia.
  - reflexivity.
  - vm_compute. reflexivity.
  - vm_compute. reflexivity.
  - simpl. lia.
  - simpl. lia.
  - simpl. lia.
  - simpl. lia.
  - lia.
  - unfold int64_max. lia.
  - unfold int64_max. lia.
Defined.

(* ================================================================== *)
(** ** The block energies of the direct strategy *)




(* ================================================================== *)
(** ** C4: no check of the shape at entry *)

Section Shapes.
Variable log10_pos : positive -> Z -> float.




End Shapes.


(* ================================================================== *)
(** ** C6: the last lines of integrated_loudness *)

Lemma nth_error_upd_same {A} (l : list A) n x y :
  nth_error l n = Some x -> nth_error (upd l n y) n = Some y.
Proof.
  revert n; induction l as [|h t IH]; intros [|n] H; simpl in *; try discriminate; auto.
Qed.

Lemma upd_app_last {A} (l : list A) x y : upd (l ++ [x]) (length l) y = l ++ [y].
Proof. induction l as [|h t IH]; simpl; [reflexivity | now rewrite IH]. Qed.

Lemma upd_upd {A} (l : list A) n x y : upd (upd l n x) n y = upd l n y.
Proof.
  revert n; induction l as [|h t IH]; intros [|n]; simpl; auto. now rewrite IH.
Qed.

Lemma run_store s n d d' :
  lookup s (Local n) = Some d ->
  store (Local n) d' s = (mkState (globals s) (upd (locals s) n d'), Ok tt).
Proof. intros H. unfold store. now rewrite H. Qed.

Lemma run_replace_eq s n d x y :
  lookup s (Local n) = Some d ->
  replace_eq (Local n) x y s
  = (mkState (globals s) (upd (locals s) n (map (fun e => if feq e x then y else e) d)),
     Ok tt).
Proof.
  intros H. unfold replace_eq.
  erewrite bind_ok by (apply run_load; exact H).
  now apply run_store with (d := d).
Qed.

Lemma sanitize_steps x :
  (fun e => if feq e ninf then float32_min else e)
    ((fun e => if feq e pinf then float32_max else e) (if isnan x then pzero else x))
  = sanitize x.
Proof. destruct x as [[|]|[|]| |[|] m e]; reflexivity. Qed.

Lemma sanitize_finite x : is_finite (sanitize x) = true.
Proof. destruct x as [[|]|[|]| |[|] m e]; reflexivity. Qed.

Lemma rect2_as_tab {A} (d : A) a b x :
  rect2 a b x -> x = tab a (fun i => tab b (fun j => nth j (nth i x []) d)).
Proof.
  intros [La Hb]. subst a.
  rewrite <- (tab_nth x []) at 1.
  apply tab_ext. intros i Hi.
  rewrite Forall_forall in Hb.
  rewrite <- (Hb (nth i x [])) by (now apply nth_In).
  symmetry. apply tab_nth.
Qed.

Lemma gather2_concat a b (x : list (list float)) :
  rect2 a b x -> gather2 (concat x) a b = x.
Proof.
  intros R. assert (E := rect2_as_tab pzero R). rewrite E at 2.
  unfold gather2. apply tab_ext. intros i Hi. apply tab_ext. intros j Hj.
  rewrite E at 1. unfold at_.
  exact (@nth_concat_tab _ a b (fun i j => nth j (nth i x []) pzero) i j pzero Hi Hj).
Qed.

Lemma rect2_map {A B} a b (f : A -> B) x : rect2 a b x -> rect2 a b (map (map f) x).
Proof.
  intros [La Hb]. split; [now rewrite length_map|].
  rewrite Forall_map. eapply Forall_impl; [|exact Hb].
  intros r Hr. now rewrite length_map.
Qed.

Section Finalize.
Variable log10_pos : positive -> Z -> float.

(** Lines 174-181 on a [z_avg_gated] of shape (B, C). *)
Lemma run_finalize Gv nch B C zag s :
  rect2 B C zag ->
  let g := firstn nch Gv in
  let clean := map (map sanitize) zag in
  finalize log10_pos Gv nch B C zag s
  = (mkState (globals s) (locals s ++ [concat clean]),
     match bdim AtLufs (length g) C with
     | Ok Cl => Ok (map (fun zb => fcast binary32
                         (lufs_of log10_pos (gain_avg_sum g (length g) C Cl zb))) clean)
     | Raise e => Raise e
     end).
Proof.
  intros R g clean. unfold finalize.
  unfold alloc at 1. unfold bind at 1.
  set (d0 := concat (map (map (fun x => if isnan x then pzero else x)) zag)).
  set (s0 := mkState (globals s) (locals s ++ [d0])).
  assert (L0 : lookup s0 (Local (length (locals s))) = Some d0).
  { simpl. rewrite nth_error_app2, Nat.sub_diag by lia. reflexivity. }
  erewrite bind_ok by (apply run_replace_eq; exact L0).
  simpl locals. simpl globals. rewrite upd_app_last.
  match goal with |- context [mkState ?gs (?l ++ [?d])] =>
    set (d1 := d); set (s1 := mkState gs (l ++ [d1])) end.
  assert (L1 : lookup s1 (Local (length (locals s))) = Some d1).
  { simpl. rewrite nth_error_app2, Nat.sub_diag by lia. reflexivity. }
  erewrite bind_ok by (apply run_replace_eq; exact L1).
  simpl locals. simpl globals. rewrite upd_app_last.
  assert (E : map (fun e => if feq e ninf then float32_min else e) d1 = concat clean).
  { unfold d1, d0, clean. rewrite !concat_map, !map_map. f_equal.
    apply map_ext. intros r. rewrite !map_map. apply map_ext. intros x.
    apply sanitize_steps. }
  rewrite E.
  match goal with |- context [mkState ?gs (?l ++ [?d])] =>
    set (s2 := mkState gs (l ++ [d])) end.
  assert (L2 : lookup s2 (Local (length (locals s))) = Some (concat clean)).
  { simpl. rewrite nth_error_app2, Nat.sub_diag by lia. reflexivity. }
  erewrite bind_ok by (apply run_load; exact L2).
  replace (gather2 (concat clean) B C) with clean
    by (symmetry; apply gather2_concat, rect2_map, R).
  unfold lift, bind. subst g.
  destruct (bdim AtLufs (length (firstn nch Gv)) C); reflexivity.
Qed.

End Finalize.

(** *** The shape of the gated averages *)

Lemma keeps_read3_rect v : keeps (rect3 (sz0 v) (sz1 v) (sz2 v)) (read3 v).
Proof.
  unfold read3. keeps_step. keeps_step. apply rect3_gather3.
Qed.

Lemma rect2_average n n' C zv : forall B masked,
  rect3 B C n zv -> rect3 B C n' masked -> rect2 B C (average zv masked).
Proof.
  unfold average.
  induction zv as [|p t IH]; intros B masked [L1 F1] [L2 F2].
  - simpl in *. subst B. split; [reflexivity | constructor].
  - destruct masked as [|q t']; [simpl in *; congruence|].
    simpl in L1, L2. inversion F1 as [|? ? [Hp _] F1']; subst.
    inversion F2 as [|? ? [Hq _] F2']; subst.
    destruct (IH (length t) t') as [IL IF]; [now split | split; [congruence | exact F2'] |].
    split; simpl.
    + now rewrite IL.
    + constructor; [|exact IF].
      rewrite length_map, length_combine. simpl. lia.
Qed.

Lemma rect3_thresholds {A B0} C n (h : B0 -> A -> bool) l : forall B thr,
  rect3 B C n l -> length thr = B ->
  rect3 B C n (map (fun p => map (map (fun x => h (snd p) x)) (fst p)) (combine l thr)).
Proof.
  induction l as [|p t IH]; intros B thr [L F] LT.
  - simpl in *. subst B. split; [reflexivity | constructor].
  - destruct thr as [|x thr']; [simpl in *; congruence|].
    simpl in L, LT. inversion F as [|? ? [Hp Hr] F']; subst.
    destruct (IH (length t) thr') as [IL IF]; [now split | congruence |].
    split; simpl.
    + now rewrite IL.
    + constructor; [|exact IF]. simpl. split; [now rewrite length_map|].
      rewrite Forall_map. eapply Forall_impl; [|exact Hr].
      intros r Hlen. now rewrite length_map.
Qed.

Lemma rect3_expand {A} B C n n' (zv : list (list (list float))) (f : list (list float) -> list A) :
  (forall zb, length (f zb) = n') ->
  rect3 B C n zv -> rect3 B C n' (map (fun zb => repeat (f zb) C) zv).
Proof.
  intros Hf [L F]. split; [now rewrite length_map|].
  rewrite Forall_map. eapply Forall_impl; [|exact F].
  intros zb _. split; [apply repeat_length|].
  apply Forall_forall. intros r Hr. apply repeat_spec in Hr. subst r. apply Hf.
Qed.

Section GatedShape.
Variable log10_pos : positive -> Z -> float.

Lemma keeps_gating_rect Gv nb nch z :
  local3 z -> keeps (rect2 (sz0 z) (sz1 z)) (gating log10_pos Gv nb nch z).
Proof.
  intros Lz. unfold gating.
  eapply keeps_bind; [apply keeps_read3_rect | intros zv R0]. keeps_step.
  eapply keeps_bind; [now apply keeps_masked_zero | intros ? _].
  eapply keeps_bind; [apply keeps_read3 | intros ? _]. keeps_step.
  keeps_step; [keeps_step|].
  eapply keeps_bind; [now apply keeps_masked_zero | intros ? _].
  do 2 keeps_step. keeps_step; [keeps_step|].
  eapply keeps_bind; [now apply keeps_masked_zero | intros ? _].
  eapply keeps_bind; [apply keeps_read3_rect | intros zv2 R2]. keeps_step.
  eapply rect2_average; [exact R2|].
  apply rect3_thresholds with (h := fun t x => fgt x (literal (-70) 1) && fgt x t);
    [|apply length_tab].
  apply rect3_expand with (n := sz2 z); [|exact R0].
  intros zb. unfold gain_sum. now rewrite length_map, length_tab.
Qed.

Lemma keeps_gated_energy_rect m data :
  keeps (fun r => let '(_, z, _, z_avg_gated) := r in rect2 (sz0 z) (sz1 z) z_avg_gated)
        (gated_energy log10_pos m data).
Proof.
  unfold gated_energy.
  eapply keeps_bind; [apply keeps_energies | intros [[[Gv nb] nch] z] Lz].
  eapply keeps_bind; [now apply keeps_gating_rect | intros zag R]. now keeps_step.
Qed.

(** C6. When [integrated_loudness] reaches line 174 with a gated average
    [z_avg_gated], the tensor it goes on with holds 0 where [z_avg_gated]
    was NaN, the largest float32 where it was +infinity and the most
    negative float32 where it was -infinity, so each of its entries is
    finite; the value returned for a signal is
    [-0.691 + 10 log10(sum_c G[c] z_avg_gated[b, c])] converted to float32
    and nothing else: where the gain-weighted sum is [<= 0] that value is
    -infinity or NaN. A call that fails before line 174 fails as a whole. *)
Theorem C6_sanitized_not_clamped (m : Meter) (data : tensor) (s : state) :
  match gated_energy log10_pos m data s with
  | (s1, Ok (Gv, z, nch, z_avg_gated)) =>
    let g := firstn nch Gv in
    let clean := map (map sanitize) z_avg_gated in
    let LUFS := fun total => fcast binary32 (lufs_of log10_pos total) in
    Forall (Forall (fun x => is_finite x = true)) clean /\
    integrated_loudness log10_pos m data s
    = (mkState (globals s1) (locals s1 ++ [concat clean]),
       match bdim AtLufs (length g) (sz1 z) with
       | Ok Cl => Ok (map (fun zb => LUFS (gain_avg_sum g (length g) (sz1 z) Cl zb)) clean)
       | Raise e => Raise e
       end) /\
    (forall total, fle total pzero = true -> LUFS total = ninf \/ LUFS total = nan)
  | (s1, Raise e) => integrated_loudness log10_pos m data s = (s1, Raise e)
  end.
Proof.
  destruct (gated_energy log10_pos m data s) as [s1 [[[[Gv z] nch] zag]|e]] eqn:E.
  - destruct (@keeps_gated_energy_rect m data _ _ _ E) as [_ R].
    specialize (R _ eq_refl). cbv beta iota in R.
    split; [|split].
    + apply Forall_forall. intros r Hr. apply in_map_iff in Hr.
      destruct Hr as [r0 [<- _]]. apply Forall_forall. intros x Hx.
      apply in_map_iff in Hx. destruct Hx as [x0 [<- _]]. apply sanitize_finite.
    + unfold integrated_loudness. unfold bind at 1. rewrite E. cbv beta iota.
      now apply run_finalize.
    + intros total H. unfold lufs_of.
      destruct total as [[|]|[|]| |[|] mt et]; try discriminate H;
        simpl flog10; vm_compute; auto.
  - unfold integrated_loudness. unfold bind at 1. now rewrite E.
Qed.

End GatedShape.

(* ================================================================== *)
(** ** C2: the gating steps and the second name of [z] *)

Lemma combine_app_eq {A B} (a a' : list A) (b b' : list B) :
  length a = length b -> combine (a ++ a') (b ++ b') = combine a b ++ combine a' b'.
Proof.
  revert b; induction a as [|x a IH]; intros [|y b] H; simpl in *; try discriminate; auto.
  f_equal. apply IH. lia.
Qed.

Lemma combine_map_same {A B C0} (f : A -> B) (h : A -> C0) xs :
  combine (map f xs) (map h xs) = map (fun x => (f x, h x)) xs.
Proof. induction xs as [|x xs IH]; simpl; [reflexivity | now rewrite IH]. Qed.

Lemma combine_map_repeat {A B C0} (f : A -> B) (k : C0) xs :
  combine (map f xs) (repeat k (length xs)) = map (fun x => (f x, k)) xs.
Proof. induction xs as [|x xs IH]; simpl; [reflexivity | now rewrite IH]. Qed.

Lemma length_zero_where mask zs :
  length mask = length zs -> length (zero_where mask zs) = length zs.
Proof. intros H. unfold zero_where. rewrite length_map, length_combine. lia. Qed.

(** One signal: the mask [mk], the same for each channel, against the
    channels [F zc]. *)
Lemma masked_rows nf (mk : list bool) (F : list float -> list float) zb :
  length mk = nf ->
  Forall (fun r => length (F r) = nf) zb ->
  map (fun p : bool * float => if fst p then pzero else snd p)
      (combine (concat (repeat mk (length zb))) (concat (map F zb)))
  = concat (map (fun zc => zero_where mk (F zc)) zb).
Proof.
  intros Hk H. induction H as [|zc zb Hc H IH]; [reflexivity|].
  simpl. rewrite combine_app_eq by congruence.
  rewrite map_app, IH. reflexivity.
Qed.

Lemma map_ext_Forall2 {A B} (P : A -> Prop) (f h : A -> B) xs :
  Forall P xs -> (forall x, P x -> f x = h x) -> map f xs = map h xs.
Proof.
  intros HF H. induction HF as [|x xs Hx HF IH]; simpl; [reflexivity|].
  now rewrite (H x Hx), IH.
Qed.

(** The whole tensor: the storage after a masked assignment whose mask is
    one row of [nf] flags per signal. *)
Lemma masked_flat B C nf (mk : list (list float) -> list bool)
    (F : list (list float) -> list float -> list float) zv :
  rect3 B C nf zv ->
  (forall zb, length (mk zb) = nf) ->
  (forall zb zc, length zc = nf -> length (F zb zc) = nf) ->
  map (fun p : bool * float => if fst p then pzero else snd p)
      (combine (flatten3 (map (fun zb => repeat (mk zb) C) zv))
               (flatten3 (map (fun zb => map (F zb) zb) zv)))
  = flatten3 (map (fun zb => map (fun zc => zero_where (mk zb) (F zb zc)) zb) zv).
Proof.
  intros [_ R] Hk HF. unfold flatten3.
  induction R as [|zb zv [Lb Rb] R IH]; [reflexivity|].
  simpl. rewrite !concat_app.
  assert (FR : Forall (fun r => length (F zb r) = nf) zb).
  { eapply Forall_impl; [|exact Rb]. intros r Hr. now apply HF. }
  rewrite combine_app_eq.
  - rewrite map_app, IH. f_equal. rewrite <- Lb.
    apply masked_rows with (nf := nf); [apply Hk | exact FR].
  - rewrite (@length_concat_uniform _ (repeat (mk zb) C) nf),
            (@length_concat_uniform _ (map (F zb) zb) nf).
    + now rewrite repeat_length, length_map, Lb.
    + now rewrite Forall_map.
    + apply Forall_forall. intros r Hr. apply repeat_spec in Hr. now subst r.
Qed.

Lemma rect3_rows B C nf (F : list (list float) -> list float -> list float) zv :
  rect3 B C nf zv ->
  (forall zb zc, length zc = nf -> length (F zb zc) = nf) ->
  rect3 B C nf (map (fun zb => map (F zb) zb) zv).
Proof.
  intros [L R] HF. split; [now rewrite length_map|].
  rewrite Forall_map. eapply Forall_impl; [|exact R].
  intros zb [Lb Rb]. split; [now rewrite length_map|].
  rewrite Forall_map. eapply Forall_impl; [|exact Rb].
  intros zc Hc. now apply HF.
Qed.

(** [z.sum(2) / masked.sum(2)] when the mask is one row of flags per
    signal. *)
Lemma average_rows B C nf (K : list (list float) -> list bool)
    (F : list (list float) -> list float -> list float) zv :
  rect3 B C nf zv ->
  average (map (fun zb => map (F zb) zb) zv) (map (fun zb => repeat (K zb) C) zv)
  = map (fun zb => map (fun zc =>
           fdiv binary32 (fsum binary32 (F zb zc))
                         (of_int binary32 (Z.of_nat (count_true (K zb))))) zb) zv.
Proof.
  intros [_ R]. unfold average.
  rewrite combine_map_same, map_map.
  eapply map_ext_Forall2; [exact R|].
  intros zb [Lb _]. simpl. rewrite <- Lb, combine_map_repeat, map_map. reflexivity.
Qed.

Lemma tab_bget {A} (d : A) n xs : length xs = n -> tab n (fun b => bget d n xs b) = xs.
Proof.
  intros L. unfold bget. destruct (n =? 1) eqn:E.
  - apply Nat.eqb_eq in E. subst n.
    destruct xs as [|x [|y xs]]; simpl in *; try discriminate. reflexivity.
  - subst n. apply tab_nth.
Qed.

Lemma bdim_same w p : bdim w p p = Ok p.
Proof. unfold bdim. now rewrite Nat.eqb_refl. Qed.

Lemma map3_expand {A B0} (h : A -> B0) (f : list (list float) -> list A) C zv :
  map3 h (map (fun zb => repeat (f zb) C) zv)
  = map (fun zb => repeat (map h (f zb)) C) zv.
Proof.
  unfold map3. rewrite map_map. apply map_ext. intros zb. apply map_repeat.
Qed.

Lemma zero_where_twice {A} (h1 h2 : A -> bool) l : forall zs,
  zero_where (map h2 l) (zero_where (map h1 l) zs)
  = zero_where (map (fun x => h1 x || h2 x) l) zs.
Proof.
  unfold zero_where.
  induction l as [|x l IH]; intros [|z zs]; simpl; try reflexivity.
  rewrite IH. f_equal. destruct (h1 x), (h2 x); reflexivity.
Qed.

Lemma zero_where_idem {A} (h : A -> bool) l zs :
  zero_where (map h l) (zero_where (map h l) zs) = zero_where (map h l) zs.
Proof.
  rewrite zero_where_twice. f_equal. apply map_ext. intros x. apply orb_diag.
Qed.

Lemma nth_error_upd_other {A} (l : list A) n k y :
  k <> n -> nth_error (upd l n y) k = nth_error l k.
Proof.
  revert n k; induction l as [|h t IH]; intros [|n] [|k] H; simpl; auto; try congruence.
Qed.

Lemma lookup_set_local s n d d' :
  lookup s (Local n) = Some d -> lookup (set_local s n d') (Local n) = Some d'.
Proof. intros H. simpl in *. now apply nth_error_upd_same with (x := d). Qed.

Lemma set_local_twice s n d d' : set_local (set_local s n d) n d' = set_local s n d'.
Proof. unfold set_local. simpl. now rewrite upd_upd. Qed.

Lemma run_masked_zero n a b c cu M d s :
  lookup s (Local n) = Some d ->
  masked_zero (dense3 (Local n) a b c cu) M s
  = (set_local s n (map (fun p : bool * float => if fst p then pzero else snd p)
                        (combine (flatten3 M) d)), Ok tt).
Proof.
  intros H. unfold masked_zero. simpl v_ref.
  erewrite bind_ok by (apply run_load; exact H).
  now apply run_store with (d := d).
Qed.

Lemma masked_flat0 B C nf (mk : list (list float) -> list bool) zv :
  rect3 B C nf zv ->
  (forall zb, length (mk zb) = nf) ->
  map (fun p : bool * float => if fst p then pzero else snd p)
      (combine (flatten3 (map (fun zb => repeat (mk zb) C) zv)) (flatten3 zv))
  = flatten3 (map (fun zb => map (zero_where (mk zb)) zb) zv).
Proof.
  intros R Hk.
  assert (E : map (fun zb : list (list float) => map (fun zc => zc) zb) zv = zv).
  { rewrite <- (map_id zv) at 2. apply map_ext. intros zb. apply map_id. }
  rewrite <- E at 2.
  now rewrite (@masked_flat B C nf mk (fun _ zc => zc) zv R Hk).
Qed.

Lemma bind_lift_ok {A B} (a : A) (k : A -> M B) s : bind (lift (Ok a)) k s = k a s.
Proof. reflexivity. Qed.

Lemma thresholds_expand {A} (h : A -> float -> bool) (f : list (list float) -> list A)
    (T : list (list float) -> float) C zv :
  map (fun p : list (list A) * float => map (map (fun x => h x (snd p))) (fst p))
      (combine (map (fun zb => repeat (f zb) C) zv) (map T zv))
  = map (fun zb => repeat (map (fun x => h x (T zb)) (f zb)) C) zv.
Proof.
  rewrite combine_map_same, map_map. apply map_ext. intros zb. simpl.
  apply map_repeat.
Qed.

Lemma length_gain_sum g gl C Cr nf zb : length (gain_sum g gl C Cr nf zb) = nf.
Proof. unfold gain_sum. apply length_tab. Qed.

Section Gating.
Variable log10_pos : positive -> Z -> float.
Variable Gv : storage.
Variables C nf : nat.

Local Abbreviation g := (firstn C Gv) (only parsing).
Local Abbreviation l zb :=
  (map (lufs_of log10_pos) (gain_sum g C C C nf zb)) (only parsing).
Local Abbreviation m1 zb := (map (fun x => fle x Gamma_a) (l zb)) (only parsing).
Local Abbreviation k1 zb := (map (fun x => fgt x Gamma_a) (l zb)) (only parsing).
Local Abbreviation T zb :=
  (fsub binary64
     (lufs_of log10_pos
        (avg_gain_sum g C C C
           (map (fun zc => fdiv binary32 (fsum binary32 (zero_where (m1 zb) zc))
                                (of_int binary32 (Z.of_nat (count_true (k1 zb))))) zb)))
     (literal 10 1)) (only parsing).
Local Abbreviation m3 zb := (map (fun x => fle x (T zb)) (l zb)) (only parsing).
Local Abbreviation k3 zb :=
  (map (fun x => fgt x Gamma_a && fgt x (T zb)) (l zb)) (only parsing).

(** Lines 149-170 on a fresh [z] of shape (B, C, nf) holding [zv]: the
    three masked assignments go through the one storage of [z] and
    [z_avg_gated], and leave in it, and return, what each signal gives on
    energies that were never written to. *)
Lemma run_gating B n cu zv s :
  rect3 B C nf zv -> lookup s (Local n) = Some (flatten3 zv) -> C <= length Gv ->
  gating log10_pos Gv B C (dense3 (Local n) B C nf cu) s
  = (set_local s n (flatten3 (map (zeroed_signal log10_pos g C nf) zv)),
     Ok (map (gate_signal log10_pos g C nf) zv)).
Proof.
  intros R L HC.
  assert (LB : length zv = B) by apply R.
  assert (Lg : length g = C) by (rewrite length_firstn; lia).
  unfold gating. cbv zeta. cbn [sz0 sz1 sz2 dense3 v_ref].
  unfold zeroed_signal, gate_signal, relative_threshold, block_loudness, gated_mean.
  rewrite Lg.
  erewrite bind_ok by (apply run_read3; exact L).
  rewrite (gather3_dense _ _ R).
  rewrite bdim_same, bind_lift_ok.
  change (literal (-70) 1) with Gamma_a.
  assert (Ll : forall zb, length (l zb) = nf).
  { intros zb. now rewrite length_map, length_gain_sum. }
  assert (Lm1 : forall zb, length (m1 zb) = nf).
  { intros zb. now rewrite length_map. }
  assert (Lm3 : forall zb, length (m3 zb) = nf).
  { intros zb. now rewrite length_map. }
  assert (Z1 : forall zb zc, length zc = nf -> length (zero_where (m1 zb) zc) = nf).
  { intros zb zc H. rewrite length_zero_where; [exact H | now rewrite Lm1]. }
  assert (Z2 : forall zb zc, length zc = nf ->
             length (zero_where (m1 zb) (zero_where (m1 zb) zc)) = nf).
  { intros zb zc H. rewrite length_zero_where; [now apply Z1|].
    now rewrite Lm1, Z1. }
  assert (Z3 : forall zb zc, length zc = nf ->
             length (zero_where (m3 zb) (zero_where (m1 zb) (zero_where (m1 zb) zc))) = nf).
  { intros zb zc H. rewrite length_zero_where; [now apply Z2|].
    now rewrite Lm3, Z2. }
  rewrite !(@map3_expand _ _ _ (fun zb => l zb)).
  (* line 154 *)
  erewrite bind_ok by (apply run_masked_zero; exact L).
  rewrite (@masked_flat0 B C nf (fun zb => m1 zb) zv R Lm1).
  assert (L1 := @lookup_set_local s n _
                  (flatten3 (map (fun zb => map (zero_where (m1 zb)) zb) zv)) L).
  (* lines 155-163 *)
  erewrite bind_ok by (apply run_read3; exact L1).
  rewrite (gather3_dense _ _ (rect3_rows (fun zb => zero_where (m1 zb)) R Z1)).
  rewrite bdim_same, bind_lift_ok.
  rewrite Nat.eqb_refl. cbn [orb negb].
  rewrite (@average_rows B C nf (fun zb => k1 zb) (fun zb => zero_where (m1 zb)) zv R).
  rewrite (map_map (fun zb => map _ zb)).
  rewrite !tab_bget by (try apply length_tab; now rewrite length_map).
  rewrite (@thresholds_expand _ (fun x t => fle x t) (fun zb => l zb) (fun zb => T zb) C zv).
  rewrite (@thresholds_expand _ (fun x t => fgt x Gamma_a && fgt x t)
             (fun zb => l zb) (fun zb => T zb) C zv).
  (* line 167 *)
  erewrite bind_ok by (apply run_masked_zero; exact L1).
  rewrite set_local_twice.
  rewrite (@masked_flat B C nf (fun zb => m1 zb) (fun zb => zero_where (m1 zb)) zv R Lm1 Z1).
  assert (L2 := @lookup_set_local s n _
                  (flatten3 (map (fun zb => map (fun zc =>
                     zero_where (m1 zb) (zero_where (m1 zb) zc)) zb) zv)) L).
  rewrite bdim_same, bind_lift_ok, bdim_same, bind_lift_ok.
  rewrite !Nat.eqb_refl. cbn [andb negb].
  (* line 168 *)
  erewrite bind_ok by (apply run_masked_zero; exact L2).
  rewrite set_local_twice.
  rewrite (@masked_flat B C nf (fun zb => m3 zb)
             (fun zb zc => zero_where (m1 zb) (zero_where (m1 zb) zc)) zv R Lm3 Z2).
  assert (L3 := @lookup_set_local s n _
                  (flatten3 (map (fun zb => map (fun zc =>
                     zero_where (m3 zb) (zero_where (m1 zb) (zero_where (m1 zb) zc))) zb)
                     zv)) L).
  (* lines 169-170 *)
  erewrite bind_ok by (apply run_read3; exact L3).
  rewrite (gather3_dense _ _
             (rect3_rows (fun zb zc =>
                zero_where (m3 zb) (zero_where (m1 zb) (zero_where (m1 zb) zc))) R Z3)).
  rewrite (@average_rows B C nf (fun zb => k3 zb)
             (fun zb zc => zero_where (m3 zb) (zero_where (m1 zb) (zero_where (m1 zb) zc)))
             zv R).
  unfold ret.
  assert (E : forall zb zc,
             zero_where (m3 zb) (zero_where (m1 zb) (zero_where (m1 zb) zc))
             = zero_where (map (fun x => fle x Gamma_a || fle x (T zb)) (l zb)) zc).
  { intros zb zc. now rewrite zero_where_idem, zero_where_twice. }
  f_equal; [do 2 f_equal | f_equal];
    apply map_ext; intros zb; apply map_ext; intros zc; now rewrite E.
Qed.

End Gating.

(** *** Sums with zeros in them, and sums without *)

Lemma nonneg_round_aux p e m x lx : nonneg (binary_round_aux p e false m x lx) = true.
Proof.
  unfold binary_round_aux.
  destruct (shr_fexp p e m x lx) as [mrs' e'].
  destruct (shr_fexp p e _ e' loc_Exact) as [mrs'' e''].
  destruct (shr_m mrs''); [reflexivity | | reflexivity].
  destruct (e'' <=? e - p)%Z; reflexivity.
Qed.

Lemma nonneg_round p e m x : nonneg (binary_round p e false m x) = true.
Proof.
  unfold binary_round. destruct (shl_align m x _) as [mz ez]. apply nonneg_round_aux.
Qed.

Lemma nonneg_fadd f x y :
  nonneg x = true -> nonneg y = true -> nonneg (fadd f x y) = true.
Proof.
  unfold fadd.
  destruct x as [[|]|[|]| |[|] mx ex], y as [[|]|[|]| |[|] my ey];
    simpl; intros Hx Hy; try discriminate; try reflexivity.
  apply nonneg_round.
Qed.

Lemma fadd_zero_r f x : nonneg x = true -> fadd f x pzero = x.
Proof. destruct x as [[|]|[|]| |[|] mx ex]; simpl; intros H; try discriminate; reflexivity. Qed.

Lemma fold_zero_where keep : forall zs acc,
  Forall (fun x => nonneg x = true) zs -> nonneg acc = true ->
  fold_left (fadd binary32) (zero_where (map negb keep) zs) acc
  = fold_left (fadd binary32) (select keep zs) acc.
Proof.
  unfold zero_where, select.
  induction keep as [|k keep IH]; intros [|z zs] acc HF Ha; try reflexivity.
  inversion HF as [|? ? Hz HF']; subst. destruct k; simpl.
  - apply IH; [exact HF' | now apply nonneg_fadd].
  - rewrite fadd_zero_r by exact Ha. now apply IH.
Qed.

Lemma length_select keep : forall zs,
  length keep = length zs -> length (select keep zs) = count_true keep.
Proof.
  unfold select, count_true.
  induction keep as [|k keep IH]; intros [|z zs] H; simpl in *; try discriminate; auto.
  destruct k; simpl; rewrite IH by lia; reflexivity.
Qed.

(** With only the blocks of [keep] left in place, the sum over all the
    blocks is the sum over the blocks of [keep]. *)
Lemma gated_mean_selected keep zs :
  length keep = length zs -> Forall (fun x => nonneg x = true) zs ->
  gated_mean (map negb keep) keep zs = mean_of_selected keep zs.
Proof.
  intros L HF. unfold gated_mean, mean_of_selected, fsum.
  rewrite fold_zero_where by (auto; reflexivity).
  now rewrite length_select.
Qed.

(** *** Comparisons without NaN *)

Lemma SFcompare_antisym x y : SFcompare y x = option_map CompOpp (SFcompare x y).
Proof.
  destruct x as [sx|sx| |sx mx ex], y as [sy|sy| |sy my ey]; simpl;
    try destruct sx; try destruct sy; try reflexivity;
    rewrite (Z.compare_antisym ex ey); destruct (ex ?= ey)%Z; simpl; try reflexivity;
    now rewrite (Pos.compare_cont_antisym mx my Eq).
Qed.

Lemma fle_not_fgt x y :
  isnan x = false -> isnan y = false -> fle x y = negb (fgt x y).
Proof.
  intros Hx Hy.
  assert (H : exists c, SFcompare x y = Some c).
  { destruct x, y; try discriminate; simpl; eauto. }
  destruct H as [c Hc].
  unfold fle, fgt, SFleb, SFltb. rewrite (SFcompare_antisym x y), Hc.
  destruct c; reflexivity.
Qed.

Lemma isnan_Gamma_a : isnan Gamma_a = false.
Proof. reflexivity. Qed.

Lemma Forall2_map_r {A B} (P : A -> B -> Prop) (f : A -> B) xs :
  (forall x, In x xs -> P x (f x)) -> Forall2 P xs (map f xs).
Proof.
  induction xs as [|x xs IH]; intros H; simpl; constructor.
  - apply H. now left.
  - apply IH. intros y Hy. apply H. now right.
Qed.

Section FinalGating.
Variable log10_pos : positive -> Z -> float.

(** One signal whose block loudnesses are not NaN: gating the energies in
    place gives the averages over the blocks that pass both gates. *)
Lemma gate_signal_survivors g C nf zb :
  let l := block_loudness log10_pos g C nf zb in
  Forall (fun zc => length zc = nf) zb ->
  Forall (Forall (fun x => nonneg x = true)) zb ->
  Forall (fun x => isnan x = false) l ->
  isnan (relative_threshold log10_pos g C nf zb) = false \/
  Forall (fun x => fgt x Gamma_a = false) l ->
  gate_signal log10_pos g C nf zb = average_of_survivors log10_pos g C nf zb.
Proof.
  intros l HL HN Hl HT.
  assert (Ll : length l = nf).
  { unfold l, block_loudness. now rewrite length_map, length_gain_sum. }
  assert (HB : Forall (fun zc => length zc = nf /\ Forall (fun x => nonneg x = true) zc) zb).
  { rewrite Forall_forall in *. intros zc Hc. split; auto. }
  assert (M1 : map (fun x => fle x Gamma_a) l = map negb (map (fun x => fgt x Gamma_a) l)).
  { rewrite map_map. eapply map_ext_Forall2; [exact Hl|].
    intros x Hx. apply fle_not_fgt; [exact Hx | apply isnan_Gamma_a]. }
  assert (E1 : map (gated_mean (map (fun x => fle x Gamma_a) l)
                               (map (fun x => fgt x Gamma_a) l)) zb
               = map (mean_of_selected (map (fun x => fgt x Gamma_a) l)) zb).
  { rewrite M1. eapply map_ext_Forall2; [exact HB|].
    intros zc [Lc Nc]. apply gated_mean_selected; [|exact Nc].
    rewrite length_map. congruence. }
  unfold gate_signal, average_of_survivors. cbv zeta. fold l.
  rewrite <- E1.
  change (fsub binary64 _ (literal 10 1)) with (relative_threshold log10_pos g C nf zb).
  set (Gamma_r := relative_threshold log10_pos g C nf zb) in *.
  assert (M3 : map (fun x => fle x Gamma_a || fle x Gamma_r) l
               = map negb (map (fun x => fgt x Gamma_a && fgt x Gamma_r) l)).
  { rewrite map_map. apply map_ext_in. intros x Hx.
    rewrite Forall_forall in Hl. specialize (Hl x Hx).
    rewrite negb_andb. destruct HT as [HT|HT].
    - now rewrite !fle_not_fgt by (auto using isnan_Gamma_a).
    - rewrite Forall_forall in HT. specialize (HT x Hx).
      rewrite (@fle_not_fgt x Gamma_a Hl isnan_Gamma_a), HT. reflexivity. }
  rewrite M3. eapply map_ext_Forall2; [exact HB|].
  intros zc [Lc Nc]. apply gated_mean_selected; [|exact Nc].
  rewrite length_map. congruence.
Qed.

(** X1. Lines 149-170 on the block energies [zv] of line 148, held by a
    fresh tensor [z] of shape (B, C, nf) with no more channels than gains.
    The call returns, for each signal, what [gate_signal] computes from the
    energies as line 148 left them: the masked assignments through
    [z_avg_gated], a second name of [z], change nothing to the result. They
    do overwrite [z]: its storage ends as [zeroed_signal], and no other
    storage is written. *)
Theorem gating_in_place (Gv : storage) (B C nf n : nat) (cu : bool)
    (zv : list (list (list float))) (s : state) :
  rect3 B C nf zv -> lookup s (Local n) = Some (flatten3 zv) -> C <= length Gv ->
  exists s',
    gating log10_pos Gv B C (dense3 (Local n) B C nf cu) s
    = (s', Ok (map (gate_signal log10_pos (firstn C Gv) C nf) zv)) /\
    globals s' = globals s /\
    lookup s' (Local n)
    = Some (flatten3 (map (zeroed_signal log10_pos (firstn C Gv) C nf) zv)) /\
    forall k, k <> n -> lookup s' (Local k) = lookup s (Local k).
Proof.
  intros R L HC.
  eexists. split; [exact (@run_gating log10_pos Gv C nf B n cu zv s R L HC)|].
  split; [reflexivity|].
  split; [now apply lookup_set_local with (d := flatten3 zv)|].
  intros k Hk. simpl. apply nth_error_upd_other. congruence.
Qed.

(** X2. When no block loudness of a signal is NaN, when its relative
    threshold is not NaN unless no block passes the absolute gate, and
    when no energy has its sign bit set, the gated average of each channel
    is the sum of the energies of exactly the blocks with [l > Gamma_a] and
    [l > Gamma_r], divided by their number. *)
Theorem gating_averages_survivors (Gv : storage) (B C nf n : nat) (cu : bool)
    (zv : list (list (list float))) (s : state) :
  rect3 B C nf zv -> lookup s (Local n) = Some (flatten3 zv) -> C <= length Gv ->
  Forall (fun zb =>
            let l := block_loudness log10_pos (firstn C Gv) C nf zb in
            Forall (Forall (fun x => nonneg x = true)) zb /\
            Forall (fun x => isnan x = false) l /\
            (isnan (relative_threshold log10_pos (firstn C Gv) C nf zb) = false \/
             Forall (fun x => fgt x Gamma_a = false) l)) zv ->
  snd (gating log10_pos Gv B C (dense3 (Local n) B C nf cu) s)
  = Ok (map (average_of_survivors log10_pos (firstn C Gv) C nf) zv).
Proof.
  intros R L HC H.
  rewrite (@run_gating log10_pos Gv C nf B n cu zv s R L HC). simpl. f_equal.
  destruct R as [_ R].
  assert (HB : Forall (fun zb =>
             gate_signal log10_pos (firstn C Gv) C nf zb
             = average_of_survivors log10_pos (firstn C Gv) C nf zb) zv).
  { rewrite Forall_forall in *. intros zb Hb.
    destruct (H zb Hb) as (HN & Hl & HT). destruct (R zb Hb) as [_ Rb].
    now apply gate_signal_survivors. }
  eapply map_ext_Forall2; [exact HB | auto].
Qed.

End FinalGating.

(** X1 on three blocks of one channel with the energies 0.25, 0.001 and
    1e-9, of loudness -6.7, -30.7 and -90.7: the third block fails the
    absolute gate, the second the relative gate at -19.7, and the storage
    of [z] ends with zeros in their places. *)
Lemma gating_in_place_witness :
  exists s',
    gating log10_ref [f64_one; f64_one; f64_one; literal 141 100; literal 141 100] 1 1
           (dense3 (Local 0) 1 1 3 false)
           (mkState [] [[f32 1 4; f32 1 1000; f32 1 1000000000]])
    = (s', Ok [[f32 1 4]]) /\
    lookup s' (Local 0) = Some [f32 1 4; pzero; pzero].
Proof.
  destruct (@gating_in_place log10_ref
              [f64_one; f64_one; f64_one; literal 141 100; literal 141 100]
              1 1 3 0 false [[[f32 1 4; f32 1 1000; f32 1 1000000000]]]
              (mkState [] [[f32 1 4; f32 1 1000; f32 1 1000000000]]))
    as (s' & RG & _ & LZ & _).
  - split; [reflexivity|]. repeat constructor.
  - reflexivity.
  - simpl. lia.
  - exists s'. split.
    + rewrite RG. apply (f_equal (pair s')). vm_compute. reflexivity.
    + rewrite LZ. apply (f_equal Some). vm_compute. reflexivity.
Defined.

(** X2 on the same energies: of the three blocks only the first has
    [l > Gamma_a] and [l > Gamma_r], and the gated average is its energy
    0.25 divided by one. *)
Lemma gating_averages_survivors_witness :
  snd (gating log10_ref [f64_one; f64_one; f64_one; literal 141 100; literal 141 100] 1 1
              (dense3 (Local 0) 1 1 3 false)
              (mkState [] [[f32 1 4; f32 1 1000; f32 1 1000000000]]))
  = Ok [[f32 1 4]] /\
  map (fun x => fgt x Gamma_a && fgt x (relative_threshold log10_ref [f64_one] 1 3
                                          [[f32 1 4; f32 1 1000; f32 1 1000000000]]))
      (block_loudness log10_ref [f64_one] 1 3 [[f32 1 4; f32 1 1000; f32 1 1000000000]])
  = [true; false; false].
Proof.
  split; [|vm_compute; reflexivity].
  rewrite (@gating_averages_survivors log10_ref
            [f64_one; f64_one; f64_one; literal 141 100; literal 141 100]
            1 1 3 0 false [[[f32 1 4; f32 1 1000; f32 1 1000000000]]]
            (mkState [] [[f32 1 4; f32 1 1000; f32 1 1000000000]])).
  - apply (f_equal Ok). vm_compute. reflexivity.
  - split; [reflexivity|]. repeat constructor.
  - reflexivity.
  - simpl. lia.
  - constructor; [|constructor]. cbv zeta.
    split; [repeat constructor|].
    split; [vm_compute; repeat constructor | left; vm_compute; reflexivity].
Defined.

(** A NaN as the last sample of the first channel of a stereo signal: the
    second block has no loudness, so its energy stays in the sum of the
    second channel while the block is counted in no average. The call
    returns NaN and +infinity where the average over the one surviving
    block is 0.377 for both channels. *)
Lemma final_gating_nan_sample :
  match ex_meter K_weighting false ex_nan_sample with
  | (s, Ok m) =>
    ~ final_gating_as_specified log10_ref m
        (mkTensor (Global 0) 0 (contiguous_dims 1 10 2) false) s
  | (_, Raise _) => False
  end.
Proof.
  destruct (ex_meter K_weighting false ex_nan_sample) as [s [m|e]] eqn:E;
    [|vm_compute in E; discriminate].
  vm_compute in E. inversion E; subst; clear E.
  intros H.
  match type of H with
  | final_gating_as_specified _ ?m ?d ?s =>
    eassert (E0 : energies m d s = _) by (vm_compute; reflexivity)
  end.
  match type of E0 with
  | _ = (?s1, Ok (?Gv, ?nb, ?nch, ?z)) =>
    eassert (L0 : lookup s1 (v_ref z) = Some _) by (vm_compute; reflexivity);
    eassert (G0 : gating log10_ref Gv nb nch z s1 = (_, Ok _)) by (vm_compute; reflexivity)
  end.
  specialize (H _ _ _ _ _ _ _ _ E0 L0 G0).
  match type of H with
  | _ = ?rhs => eassert (R0 : rhs = _) by (vm_compute; reflexivity)
  end.
  rewrite R0 in H. discriminate H.
Qed.

(* ================================================================== *)
(** ** The direct strategy, signal by signal *)

Lemma iir_rows_signal st y : iir_rows st y = map (iir_signal st) y.
Proof.
  unfold iir_rows, iir_signal, map3. rewrite map_map. reflexivity.
Qed.

Lemma iir_cascade_signal stages : forall y,
  iir_cascade stages y = map (signal_cascade stages) y.
Proof.
  unfold iir_cascade, signal_cascade.
  induction stages as [|st stages IH]; intros y; simpl.
  - symmetry. apply map_id.
  - rewrite IH, iir_rows_signal, map_map. reflexivity.
Qed.



Section Direct.
Variable log10_pos : positive -> Z -> float.


End Direct.

Section BatchElements.
Variable log10_pos : positive -> Z -> float.


End BatchElements.


(* ================================================================== *)
(** ** Digital silence *)

Definition zeros (xs : list float) : Prop := Forall (fun x => is_zero x = true) xs.



















Section Silence.
Variable log10_pos : positive -> Z -> float.







End Silence.


(* ================================================================== *)
(** ** The FIR strategy on more than one channel *)

Definition shape_is (a c : nat) (v : view3) : Prop :=
  sz0 v = a /\ sz2 v = c /\ local3 v.

Lemma keeps_fresh3_shape a b c cu x :
  keeps (fun v => sz0 v = a /\ sz1 v = b /\ sz2 v = c /\ local3 v) (fresh3 a b c cu x).
Proof. unfold fresh3. repeat keeps_step. simpl. repeat split. now eexists. Qed.

Lemma keeps_fir_stage_shape m nt data i :
  keeps (fun v => sz0 v = sz0 data /\ sz1 v = 1 /\ local3 v) (fir_stage m nt data i).
Proof.
  unfold fir_stage.
  eapply keeps_bind; [apply keeps_read3 | intros ? _].
  repeat keeps_step. simpl. repeat split. now eexists.
Qed.

(** Lines 66-85: whatever the input, the tensor that [apply_filter_gpu]
    returns has the channels folded into the batch axis. *)
Lemma keeps_apply_filter_gpu_shape m data :
  keeps (shape_is (sz0 data * sz2 data) 1) (apply_filter_gpu m data).
Proof.
  unfold apply_filter_gpu.
  eapply keeps_bind; [apply keeps_read3 | intros ? _].
  eapply keeps_bind; [apply keeps_fresh3_shape | intros d0 (S0 & S1 & _ & L0)].
  eapply keeps_bind.
  - apply keeps_foldM
      with (P := fun v => sz0 v = sz0 data * sz2 data /\ sz1 v = 1 /\ local3 v).
    + intros v i (V0 & V1 & VL).
      eapply keeps_weaken; [apply keeps_fir_stage_shape|].
      intros v' (W0 & W1 & WL). repeat split; auto. congruence.
    + repeat split; auto.
  - intros d1 (D0 & D1 & DL). keeps_step. unfold shape_is. simpl. auto.
Qed.

Lemma keeps_contiguous_shape v :
  keeps (fun v' => sz0 v' = sz0 v /\ sz1 v' = sz1 v) (contiguous v).
Proof.
  unfold contiguous. keeps_step; [keeps_step; auto|].
  eapply keeps_bind; [apply keeps_read3 | intros ? _].
  eapply keeps_weaken; [apply keeps_fresh3_shape|].
  intros v' (A0 & A1 & _). auto.
Qed.

Lemma keeps_as_strided_shape v a b c d ta tb tc td :
  keeps (fun w => wz0 w = Z.to_nat a /\ wz1 w = Z.to_nat b)
        (as_strided v a b c d ta tb tc td).
Proof. unfold as_strided. repeat keeps_step; simpl; auto. Qed.

Lemma keeps_unfold1d_shape v k st :
  keeps (fun w => wz0 w = sz0 v /\ wz1 w = sz1 v) (unfold1d v k st).
Proof.
  unfold unfold1d. keeps_step; [keeps_step|].
  eapply keeps_bind; [apply keeps_contiguous_shape | intros v' [A0 A1]].
  eapply keeps_bind; [apply keeps_as_strided_shape | intros w [W0 W1]].
  keeps_step. simpl in *. rewrite W0, W1, !Nat2Z.id. auto.
Qed.

Lemma keeps_unfold_shape m v :
  keeps (fun w => wz0 w = sz0 v /\ wz1 w = sz2 v) (unfold m v).
Proof.
  unfold unfold. repeat keeps_step.
  eapply keeps_weaken; [apply keeps_unfold1d_shape | auto].
Qed.

Lemma keeps_block_energies_shape m u :
  keeps (fun z => sz0 z = wz0 u /\ sz1 z = wz1 u /\ local3 z) (block_energies m u).
Proof.
  unfold block_energies.
  eapply keeps_bind; [apply keeps_read4 | intros ? _].
  eapply keeps_weaken; [apply keeps_fresh3_shape|].
  intros z (A0 & A1 & _ & L). auto.
Qed.

Section FirShape.
Variable log10_pos : positive -> Z -> float.

(** Line 163: [Gamma_r.expand(nb, nch, ...)] cannot be reached and passed
    when [z] has neither [nb] signals nor one. *)
Lemma keeps_gating_no_expand Gv nb nch z :
  local3 z -> sz0 z <> nb -> sz0 z <> 1 ->
  keeps (fun _ => False) (gating log10_pos Gv nb nch z).
Proof.
  intros Lz H1 H2.
  assert (Hc : negb ((sz0 z =? nb) || (sz0 z =? 1)) = true).
  { apply negb_true_iff, orb_false_iff. split; now apply Nat.eqb_neq. }
  unfold gating. cbv zeta. rewrite Hc.
  eapply keeps_bind; [apply keeps_read3 | intros ? _]. keeps_step.
  eapply keeps_bind; [now apply keeps_masked_zero | intros ? _].
  eapply keeps_bind; [apply keeps_read3 | intros ? _]. keeps_step.
  keeps_step.
Qed.

Lemma keeps_energies_fir m input :
  v_cuda input || use_fir m = true ->
  keeps (fun e => let '(_, nb, nch, z) := e in
                  nb = sz0 input /\ nch = sz2 input /\
                  sz0 z = sz0 input * sz2 input /\ local3 z)
        (energies m (tensor_of input)).
Proof.
  intros Hf. intros s s' r E. rewrite energies_rank3 in E. revert s s' r E.
  change (keeps (fun e => let '(_, nb, nch, z) := e in
                  nb = sz0 input /\ nch = sz2 input /\
                  sz0 z = sz0 input * sz2 input /\ local3 z)
     (input_data <- apply_filter m input ;;
      Gv <- load (G m) ;;
      unfolded <- unfold m input_data ;;
      z <- block_energies m unfolded ;;
      ret (Gv, sz0 input, sz2 input, z))).
  unfold apply_filter. rewrite Hf.
  eapply keeps_bind; [apply keeps_apply_filter_gpu_shape | intros v (V0 & V2 & VL)].
  keeps_step.
  eapply keeps_bind; [apply keeps_unfold_shape | intros w (W0 & W1)].
  eapply keeps_bind; [apply keeps_block_energies_shape | intros z (Z0 & Z1 & ZL)].
  keeps_step. repeat split; auto. congruence.
Qed.

(** X5. With the FIR strategy (or a CUDA input), a rank-3 input of at
    least one signal and two or more channels is never measured: whatever
    the samples, the filters and the store, [integrated_loudness] ends in
    an exception, and it leaves the caller's storages as they were. *)
Theorem fir_multichannel_never_returns (m : Meter) (input : view3) (s : state) :
  v_cuda input || use_fir m = true -> 1 <= sz0 input -> 2 <= sz2 input ->
  exists e,
    snd (integrated_loudness log10_pos m (tensor_of input) s) = Raise e /\
    globals (fst (integrated_loudness log10_pos m (tensor_of input) s)) = globals s.
Proof.
  intros Hf Hb Hc.
  assert (K : keeps (fun _ : list float => False)
                    (integrated_loudness log10_pos m (tensor_of input))).
  { unfold integrated_loudness, gated_energy.
    eapply keeps_bind with (P := fun _ => False); [|intros ? []].
    eapply keeps_bind; [now apply keeps_energies_fir|].
    intros [[[Gv nb] nch] z] (-> & -> & Z0 & ZL).
    eapply keeps_bind with (P := fun _ => False); [|intros ? []].
    apply keeps_gating_no_expand; [exact ZL | rewrite Z0; nia | rewrite Z0; nia]. }
  destruct (integrated_loudness log10_pos m (tensor_of input) s) as [s' r] eqn:E.
  destruct (K _ _ _ E) as [HG HP]. destruct r as [a|e].
  - destruct (HP a eq_refl).
  - exists e. simpl. auto.
Qed.

End FirShape.

(** X5 on one signal of ten samples and two channels, with the meter that
    [Meter.__init__] builds for the K-weighting in the store of the
    samples: the buffers are there, the FIR filter runs, and the call
    fails at [Gamma_r.expand] (line 163). *)
Lemma fir_multichannel_never_returns_witness :
  let m := mkMeter 20 (literal 4 10) true [itu_high_shelf; itu_high_pass] (Global 1)
                   (dense3 (Global 2) 2 1 4 false) (Global 3) in
  let s := fst (ex_meter K_weighting true (firstn 20 ex_square_wave)) in
  let x := tensor_of (dense3 (Global 0) 1 10 2 false) in
  snd (ex_meter K_weighting true (firstn 20 ex_square_wave)) = Ok m /\
  exists e,
    (snd (integrated_loudness log10_ref m x s) = Raise e /\
     globals (fst (integrated_loudness log10_ref m x s)) = globals s) /\
    e = (RuntimeError, AtExpand).
Proof.
  split; [vm_compute; reflexivity|].
  destruct (@fir_multichannel_never_returns log10_ref
              (mkMeter 20 (literal 4 10) true [itu_high_shelf; itu_high_pass] (Global 1)
                       (dense3 (Global 2) 2 1 4 false) (Global 3))
              (dense3 (Global 0) 1 10 2 false)
              (fst (ex_meter K_weighting true (firstn 20 ex_square_wave))))
    as (e & He & Hg).
  - reflexivity.
  - simpl. lia.
  - simpl. lia.
  - exists e. split; [split; [exact He | exact Hg]|].
    assert (R : snd (integrated_loudness log10_ref
                (mkMeter 20 (literal 4 10) true [itu_high_shelf; itu_high_pass] (Global 1)
                         (dense3 (Global 2) 2 1 4 false) (Global 3))
                (tensor_of (dense3 (Global 0) 1 10 2 false))
                (fst (ex_meter K_weighting true (firstn 20 ex_square_wave))))
              = Raise (RuntimeError, AtExpand)) by (vm_compute; reflexivity).
    rewrite R in He. now inversion He.
Defined.

(* ================================================================== *)
(** ** The floor of LoudnessMixin.loudness *)

Lemma fmaximum_floor_finite x lo :
  SFcompare lo lo = Some Eq ->
  (isnan x = false -> SFcompare x lo <> None) ->
  if isnan x then isnan (fmaximum x lo) = true
  else fle lo (fmaximum x lo) = true /\ (fle lo x = true -> fmaximum x lo = x) /\
       (fle lo x = false -> fmaximum x lo = lo).
Proof.
  intros Hlo Hx. destruct (isnan x) eqn:N.
  - destruct x; try discriminate. reflexivity.
  - specialize (Hx eq_refl). unfold fmaximum, fle, SFleb.
    rewrite (SFcompare_antisym x lo).
    destruct (SFcompare x lo) as [[| |]|] eqn:E; [| | |congruence]; cbn [option_map CompOpp].
    + rewrite (SFcompare_antisym x lo), E. cbn [option_map CompOpp].
      repeat split; auto. discriminate.
    + rewrite Hlo. repeat split; auto. discriminate.
    + rewrite (SFcompare_antisym x lo), E. cbn [option_map CompOpp].
      repeat split; auto. discriminate.
Qed.

Lemma fmaximum_floor x :
  let lo := of_int binary32 MIN_LOUDNESS in
  if isnan x then isnan (fmaximum x lo) = true
  else fle lo (fmaximum x lo) = true /\ (fle lo x = true -> fmaximum x lo = x) /\
       (fle lo x = false -> fmaximum x lo = lo).
Proof.
  intros lo.
  assert (E : exists m e, lo = S754_finite true m e) by (eexists _, _; vm_compute; reflexivity).
  destruct E as (m & e & E). rewrite E.
  apply fmaximum_floor_finite.
  - cbn [SFcompare]. now rewrite Z.compare_refl, Pos.compare_cont_refl.
  - intros N. destruct x; try discriminate; discriminate.
Qed.
Section Floor.
Variable log10_pos : positive -> Z -> float.
Variable pyloudnorm_filters : filter_class -> Z -> result (list IIRfilter.t).

(** X6. A call of [loudness] on a signal without a cached value, when it
    returns, has padded the signal if it was short, built a meter for its
    sample rate and the arguments of the call, and measured the signal
    with [integrated_loudness]; what it returns is the list of the
    measured values floored at -70: a measured value at or above -70 is
    returned as it is, a lower one (-infinity included) becomes -70, and
    a NaN stays a NaN ([torch.maximum] does not floor it). *)
Theorem loudness_floor (self : AudioSignal) fc bs zeros fir s s1 self1 v :
  _loudness self = None ->
  loudness log10_pos pyloudnorm_filters self fc bs zeros fir s = (s1, Ok (self1, v)) ->
  exists padded sa meter sb sc measured,
    padded_for_measurement self s = (sa, Ok padded) /\
    Meter_init pyloudnorm_filters (sample_rate padded) fc bs zeros fir sa
    = (sb, Ok meter) /\
    call (integrated_loudness log10_pos meter
            (tensor_of (permute021 (audio_data padded)))) sb
    = (sc, Ok measured) /\
    Forall2 floored measured v.
Proof.
  intros Hn H. unfold loudness in H. rewrite Hn in H.
  unfold bind at 1 in H.
  match type of H with
  | (let (_, _) := ?x in _) = _ => destruct x as [sa [padded|e1]] eqn:E1
  | match ?x with _ => _ end = _ => destruct x as [sa [padded|e1]] eqn:E1
  end; [|discriminate H].
  unfold bind at 1 in H.
  match type of H with
  | (let (_, _) := ?x in _) = _ => destruct x as [sb [meter|e2]] eqn:E2
  | match ?x with _ => _ end = _ => destruct x as [sb [meter|e2]] eqn:E2
  end; [|discriminate H].
  unfold bind at 1 in H.
  match type of H with
  | (let (_, _) := ?x in _) = _ => destruct x as [sc [measured|e3]] eqn:E3
  | match ?x with _ => _ end = _ => destruct x as [sc [measured|e3]] eqn:E3
  end; [|discriminate H].
  unfold ret in H. inversion H; subst.
  exists padded, sa, meter, sb, s1, measured.
  split; [exact E1|]. split; [exact E2|]. split; [exact E3|].
  apply Forall2_map_r. intros x _. apply fmaximum_floor.
Qed.

End Floor.

(** X6 on ten samples of silence at 20 Hz: the measured value is
    -infinity, and -70 is returned. *)
Lemma loudness_floor_witness :
  exists padded sa meter sb sc measured,
    padded_for_measurement ex_signal (ex_state (repeat pzero 10)) = (sa, Ok padded) /\
    Meter_init itu_filters (sample_rate padded) K_weighting (literal 4 10) 4 false sa
    = (sb, Ok meter) /\
    call (integrated_loudness log10_ref meter
            (tensor_of (permute021 (audio_data padded)))) sb
    = (sc, Ok measured) /\
    Forall2 floored measured [of_int binary32 (-70)].
Proof.
  apply (@loudness_floor log10_ref itu_filters ex_signal K_weighting (literal 4 10) 4%nat
           false (ex_state (repeat pzero 10))
           (fst (loudness log10_ref itu_filters ex_signal K_weighting (literal 4 10) 4%nat
                          false (ex_state (repeat pzero 10))))
           (mkSignal (audio_data (fst (match snd (loudness log10_ref itu_filters ex_signal
                        K_weighting (literal 4 10) 4%nat false (ex_state (repeat pzero 10)))
                      with Ok p => p | Raise _ => (ex_signal, []) end)))
                     20 (Some [of_int binary32 (-70)]))).
  - reflexivity.
  - vm_compute. reflexivity.
Defined.

(* ================================================================== *)
(** ** Blocks of fewer than four samples *)

Section ZeroStride.
Variable log10_pos : positive -> Z -> float.

Lemma run_unfold_zero_stride (m : Meter) v s ks :
  py_int (block_samples m) = Ok ks ->
  py_int (fmul binary64 (block_samples m) (fsub binary64 f64_one (literal 75 100))) = Ok 0%Z ->
  unfold m v s = (s, Raise (ZeroDivisionError, AtFloorDiv)).
Proof.
  intros K1 K2. unfold unfold. cbv zeta. rewrite K1, K2.
  rewrite !bind_lift_ok. reflexivity.
Qed.

(** X7. When [int(T_g * rate * 0.25)] is 0, that is when a gating block
    has fewer than four samples, [integrated_loudness] under the direct
    strategy filters an input of at least one sample and then fails with
    the ZeroDivisionError of [// stride] in [unfold1d] (line 19), however
    many samples the input has. *)
Theorem zero_stride_raises (m : Meter) (input : view3) (s : state)
    (d Gv : storage) (ks : Z) :
  use_fir m = false -> v_cuda input = false ->
  lookup s (v_ref input) = Some d -> in_bounds input d -> 1 <= sz1 input ->
  lookup s (G m) = Some Gv ->
  py_int (block_samples m) = Ok ks ->
  py_int (fmul binary64 (block_samples m) (fsub binary64 f64_one (literal 75 100))) = Ok 0%Z ->
  (exists s1 v, apply_filter m input s = (s1, Ok v)) /\
  snd (integrated_loudness log10_pos m (tensor_of input) s)
  = Raise (ZeroDivisionError, AtFloorDiv).
Proof.
  intros Hfir Hcu Hd Hb Hn HG K1 K2.
  assert (AF : apply_filter m input = foldM iir_stage (_filters m) input).
  { unfold apply_filter. now rewrite Hcu, Hfir. }
  destruct (@run_apply_filter_cpu (_filters m) input s d Hd Hb Hn)
    as (s1 & v1 & d1 & R & _ & K & _).
  split; [exists s1, v1; now rewrite AF|].
  unfold integrated_loudness, gated_energy.
  apply snd_bind_raise. apply snd_bind_raise.
  rewrite energies_rank3, AF.
  erewrite bind_ok by exact R.
  erewrite bind_ok by (apply run_load; apply K; exact HG).
  apply snd_bind_raise.
  now rewrite (@run_unfold_zero_stride m v1 s1 ks K1 K2).
Qed.

End ZeroStride.

(** X7 at 8 Hz with blocks of 0.4 s: a block has three samples and the
    stride is [int(0.8) = 0]. *)
Lemma zero_stride_raises_witness :
  snd (integrated_loudness log10_ref
         (mkMeter 8 (literal 4 10) false [itu_high_pass] (Global 1)
                  (dense3 (Global 2) 1 1 4 false) (Global 3))
         (tensor_of (dense3 (Global 0) 1 24 1 false))
         (mkState [ex_square_wave;
                   [f64_one; f64_one; f64_one; literal 141 100; literal 141 100]] []))
  = Raise (ZeroDivisionError, AtFloorDiv).
Proof.
  refine (proj2 (@zero_stride_raises log10_ref _ _ _ ex_square_wave
             [f64_one; f64_one; f64_one; literal 141 100; literal 141 100]
             3%Z _ _ _ _ _ _ _ _)).
  - reflexivity.
  - reflexivity.
  - reflexivity.
  - unfold in_bounds. vm_compute. lia.
  - simpl. lia.
  - reflexivity.
  - vm_compute. reflexivity.
  - vm_compute. reflexivity.
Defined.

(* ================================================================== *)
(** ** Meter.__init__ *)

Definition gains_G : storage :=
  [f64_one; f64_one; f64_one; literal 141 100; literal 141 100].

Section Init.
Variable pyloudnorm_filters : filter_class -> Z -> result (list IIRfilter.t).

(** X8. Once pyloudnorm has designed the stages of the filter class,
    [Meter.__init__] registers its buffers after the storages that exist
    and touches none of them. With [zeros = 0] it fails with the
    IndexError of [impulse[..., 0] = 1.0] (line 52), [G] being registered
    already. With [zeros >= 1] it returns a meter whose [G] holds the five
    gains, whose [firs] is a view of shape (stages, 1, zeros) onto a
    storage of exactly [stages * zeros] float32 values, and whose
    [passband_gain] holds one float32 gain per stage. *)
Theorem Meter_init_registers (rate : Z) (fc : filter_class) (block_size : float)
    (zeros : nat) (use_fir : bool) (filters : list IIRfilter.t) (s : state) :
  pyloudnorm_filters fc rate = Ok filters ->
  let n := length (globals s) in
  (zeros = 0 ->
   Meter_init pyloudnorm_filters rate fc block_size zeros use_fir s
   = (mkState (globals s ++ [gains_G]) (locals s), Raise (IndexError, AtInit))) /\
  (1 <= zeros ->
   exists firs_data,
     Meter_init pyloudnorm_filters rate fc block_size zeros use_fir s
     = (mkState (globals s ++ [gains_G; firs_data;
                               map (fun st => fcast binary32 (IIRfilter.passband_gain st))
                                   filters])
                (locals s),
        Ok (mkMeter rate block_size use_fir filters (Global n)
                    (dense3 (Global (n + 1)) (length filters) 1 zeros false)
                    (Global (n + 2)))) /\
     length firs_data = length filters * zeros).
Proof.
  intros HF n. unfold Meter_init. rewrite HF, bind_lift_ok.
  unfold galloc at 1. unfold bind at 1. cbn [globals locals].
  split; intros Hz.
  - subst zeros. reflexivity.
  - destruct zeros as [|z']; [lia|].
    eexists. split.
    + unfold galloc, bind, ret. cbn [globals locals].
      rewrite !length_app. cbn [length].
      rewrite <- !app_assoc. cbn [app]. fold n.
      replace (n + 1 + 1) with (n + 2) by lia. reflexivity.
    + rewrite (@length_concat_uniform _ _ (S z')).
      * now rewrite length_map.
      * rewrite Forall_map. apply Forall_forall. intros st _.
        rewrite length_map, length_rev, length_lfilter. simpl.
        now rewrite repeat_length.
Qed.

End Init.

(** X8 for the K-weighting at 20 Hz with four taps. *)
Lemma Meter_init_registers_witness :
  exists firs_data,
    Meter_init itu_filters 20 K_weighting (literal 4 10) 4 false
               (ex_state ex_square_wave)
    = (mkState ([ex_square_wave] ++
                [gains_G; firs_data;
                 map (fun st => fcast binary32 (IIRfilter.passband_gain st))
                     [itu_high_shelf; itu_high_pass]]) [],
       Ok (mkMeter 20 (literal 4 10) false [itu_high_shelf; itu_high_pass] (Global 1)
                   (dense3 (Global 2) 2 1 4 false) (Global 3))) /\
    length firs_data = 2 * 4.
Proof.
  apply (proj2 (@Meter_init_registers itu_filters 20 K_weighting (literal 4 10) 4 false
                  [itu_high_shelf; itu_high_pass] (ex_state ex_square_wave) eq_refl)).
  lia.
Defined.

(* ================================================================== *)
(** ** LoudnessMixin.loudness on silence *)

Section SilentSignal.
Variable log10_pos : positive -> Z -> float.
Variable pyloudnorm_filters : filter_class -> Z -> result (list IIRfilter.t).




End SilentSignal.


(* ================================================================== *)
(** ** The direct strategy, row by row *)

Lemma signal_cascade_rows stages : forall x,
  signal_cascade stages x = map (row_cascade stages) x.
Proof.
  unfold signal_cascade, row_cascade.
  induction stages as [|st stages IH]; intros x; simpl.
  - symmetry. apply map_id.
  - rewrite IH. unfold iir_signal. rewrite !map_map. reflexivity.
Qed.

Lemma length_row_cascade stages : forall row,
  length (row_cascade stages row) = length row.
Proof.
  unfold row_cascade. induction stages as [|st stages IH]; intros row; simpl; [reflexivity|].
  now rewrite IH, length_map, length_lfilter.
Qed.

(** X10. [apply_filter_cpu] on a tensor of shape (nb, nt, nch) that lies
    inside its storage. With no stage it returns the input tensor itself.
    With at least one stage and no sample ([nt = 0]) it fails with the
    RuntimeError of [lfilter] (line 95). With at least one sample it
    returns a tensor of the same shape and writes to no storage that
    existed; row (b, c) of the result, the samples of channel [c] of
    signal [b], is a function of row (b, c) of the input alone, the same
    function for every row, tensor and store, and has as many samples. *)
Theorem apply_filter_cpu_rows (m : Meter) :
  exists F : list float -> list float,
    (forall row, length (F row) = length row) /\
    forall (data : view3) (s : state) (d : storage),
      lookup s (v_ref data) = Some d -> in_bounds data d ->
      (_filters m = [] -> apply_filter_cpu m data s = (s, Ok data)) /\
      (_filters m <> [] -> sz1 data = 0 ->
       apply_filter_cpu m data s = (s, Raise (RuntimeError, AtLfilter))) /\
      (1 <= sz1 data ->
       exists s' v d',
         apply_filter_cpu m data s = (s', Ok v) /\
         globals s' = globals s /\
         (forall r x, lookup s r = Some x -> lookup s' r = Some x) /\
         lookup s' (v_ref v) = Some d' /\
         (sz0 v, sz1 v, sz2 v) = (sz0 data, sz1 data, sz2 data) /\
         gather3 d' (permute021 v) = map (map F) (gather3 d (permute021 data))).
Proof.
  exists (row_cascade (_filters m)). split; [apply length_row_cascade|].
  intros data s d Hd Hb. unfold apply_filter_cpu. split; [|split].
  - intros E. rewrite E. reflexivity.
  - intros NE Z. destruct (_filters m) as [|st l]; [congruence|].
    simpl. unfold bind, iir_stage. cbv zeta. rewrite Z. reflexivity.
  - intros Hn.
    destruct (@run_apply_filter_cpu (_filters m) data s d Hd Hb Hn)
      as (s' & v & d' & R & HG & K & L & _ & SZ & GA & _).
    exists s', v, d'.
    split; [exact R|]. split; [exact HG|]. split; [exact K|]. split; [exact L|].
    split; [exact SZ|].
    rewrite GA, iir_cascade_signal.
    apply map_ext. intros x. apply signal_cascade_rows.
Qed.

(** X10 on the two stages of the K-weighting: the square wave as twelve
    samples of two channels is filtered into a tensor of the same shape,
    and a tensor without samples is refused. *)
Lemma apply_filter_cpu_rows_witness :
  (exists s' v d',
     apply_filter_cpu
       (mkMeter 20 (literal 4 10) false [itu_high_shelf; itu_high_pass] (Global 1)
                (dense3 (Global 2) 2 1 4 false) (Global 3))
       (dense3 (Global 0) 1 12 2 false) (ex_state ex_square_wave) = (s', Ok v) /\
     lookup s' (v_ref v) = Some d' /\
     (sz0 v, sz1 v, sz2 v) = (1, 12, 2)) /\
  apply_filter_cpu
    (mkMeter 20 (literal 4 10) false [itu_high_shelf; itu_high_pass] (Global 1)
             (dense3 (Global 2) 2 1 4 false) (Global 3))
    (dense3 (Global 0) 1 0 2 false) (ex_state ex_square_wave)
  = (ex_state ex_square_wave, Raise (RuntimeError, AtLfilter)).
Proof.
  destruct (apply_filter_cpu_rows
              (mkMeter 20 (literal 4 10) false [itu_high_shelf; itu_high_pass] (Global 1)
                       (dense3 (Global 2) 2 1 4 false) (Global 3)))
    as (F & _ & H).
  split.
  - destruct (H (dense3 (Global 0) 1 12 2 false) (ex_state ex_square_wave) ex_square_wave)
      as (_ & _ & H3).
    + reflexivity.
    + unfold in_bounds. vm_compute. lia.
    + destruct H3 as (s' & v & d' & R & _ & _ & L & SZ & _); [simpl; lia|].
      exists s', v, d'. repeat split; assumption.
  - destruct (H (dense3 (Global 0) 1 0 2 false) (ex_state ex_square_wave) ex_square_wave)
      as (_ & H2 & _).
    + reflexivity.
    + unfold in_bounds. simpl. intros N. now elim N.
    + apply H2; [discriminate | reflexivity].
Defined.

(* ================================================================== *)
(** ** Inputs of rank 1 and 2 *)

Section LowRank.
Variable log10_pos : positive -> Z -> float.


End LowRank.


(* ================================================================== *)
(** ** What LoudnessMixin.loudness leaves alone *)

Lemma grows_ret {A} (P : A -> Prop) a : P a -> grows P (ret a).
Proof.
  intros HP s s' r H. inversion H; subst. split; [exists []; now rewrite app_nil_r|].
  split; [reflexivity|]. intros ? E; inversion E; subst; auto.
Qed.

Lemma grows_lift {A} (r0 : result A) : grows (fun _ => True) (lift r0).
Proof.
  intros s s' r H. inversion H; subst. split; [exists []; now rewrite app_nil_r|]. auto.
Qed.

Lemma grows_galloc d : grows (fun _ => True) (galloc d).
Proof. intros s s' r H. inversion H; subst. simpl. split; [now eexists|]. auto. Qed.

Lemma grows_weaken {A} (P Q : A -> Prop) c :
  grows P c -> (forall a, P a -> Q a) -> grows Q c.
Proof. intros H HPQ s s' r E. destruct (H _ _ _ E) as (X & Y & Z). repeat split; auto. Qed.

Lemma grows_bind {A B} (P : A -> Prop) (Q : B -> Prop) (c : M A) (k : A -> M B) :
  grows P c -> (forall a, P a -> grows Q (k a)) -> grows Q (bind c k).
Proof.
  intros Hc Hk s s' r E. unfold bind in E.
  destruct (c s) as [s1 [a|e]] eqn:Ec.
  - destruct (Hc _ _ _ Ec) as ([e1 G1] & L1 & Pa).
    destruct (Hk a (Pa a eq_refl) _ _ _ E) as ([e2 G2] & L2 & Qb).
    split; [exists (e1 ++ e2); now rewrite G2, G1, app_assoc|].
    split; [congruence | exact Qb].
  - inversion E; subst. destruct (Hc _ _ _ Ec) as (G1 & L1 & _).
    repeat split; auto. intros ? X; discriminate.
Qed.

Lemma grows_call {A} (P : A -> Prop) (c : M A) : keeps P c -> grows P (call c).
Proof.
  intros H s s' r E. unfold call in E.
  destruct (c (mkState (globals s) [])) as [s1 r1] eqn:Ec. inversion E; subst; simpl.
  destruct (H _ _ _ Ec) as [G1 HP]. simpl in G1.
  split; [exists []; now rewrite app_nil_r|]. auto.
Qed.

Lemma grows_read3 v : grows (fun _ => True) (read3 v).
Proof.
  intros s s' r E. unfold read3, bind, load in E.
  destruct (lookup s (v_ref v)); inversion E; subst;
    (split; [exists []; now rewrite app_nil_r|]); auto.
Qed.

Section LoudnessFrame.
Variable log10_pos : positive -> Z -> float.
Variable pyloudnorm_filters : filter_class -> Z -> result (list IIRfilter.t).

Lemma grows_Meter_init rate fc bs zeros fir :
  grows (fun _ => True) (Meter_init pyloudnorm_filters rate fc bs zeros fir).
Proof.
  unfold Meter_init.
  eapply grows_bind; [apply grows_lift | intros filters _].
  eapply grows_bind; [apply grows_galloc | intros g _].
  destruct zeros as [|z'].
  - intros s s' r H. inversion H; subst.
    split; [exists []; now rewrite app_nil_r|]. split; [reflexivity|]. discriminate.
  - eapply grows_bind; [apply grows_galloc | intros fr _].
    eapply grows_bind; [apply grows_galloc | intros pg _].
    now apply grows_ret.
Qed.

(** X12. Whatever the signal, the arguments and the store, a call of
    [loudness] modifies no storage that existed before it, the samples of
    the signal included: what it allocates (the buffers of the meter, and
    the padded copy of a short signal) comes after the existing storages.
    The temporaries of the measurement are gone when it returns. *)
Theorem loudness_preserves_storages (self : AudioSignal) (fc : filter_class)
    (block_size : float) (zeros : nat) (use_fir : bool) (s : state) :
  let s' := fst (loudness log10_pos pyloudnorm_filters self fc block_size zeros use_fir s) in
  (exists ext, globals s' = globals s ++ ext) /\
  locals s' = locals s /\
  forall k x, lookup s (Global k) = Some x -> lookup s' (Global k) = Some x.
Proof.
  assert (K : grows (fun _ => True)
                (loudness log10_pos pyloudnorm_filters self fc block_size zeros use_fir)).
  { unfold loudness. destruct (_loudness self) as [v|]; [now apply grows_ret|].
    eapply grows_bind with (P := fun _ => True).
    - destruct (flt (signal_duration self) (literal 5 10)); [|now apply grows_ret].
      eapply grows_bind; [apply grows_lift | intros pad_len _].
      unfold zero_pad.
      eapply grows_bind; [apply grows_read3 | intros x _].
      eapply grows_bind; [apply grows_galloc | intros r0 _].
      now apply grows_ret.
    - intros self0 _.
      eapply grows_bind; [apply grows_Meter_init | intros meter _].
      eapply grows_bind.
      + apply grows_call. apply keeps_integrated_loudness.
      + intros l _. now apply grows_ret. }
  intros s'. subst s'.
  destruct (loudness log10_pos pyloudnorm_filters self fc block_size zeros use_fir s)
    as [s1 r] eqn:E.
  destruct (K _ _ _ E) as ([ext HG] & HL & _). simpl.
  split; [now exists ext|]. split; [exact HL|].
  intros k x Hk. simpl in *. rewrite HG.
  rewrite nth_error_app1; [exact Hk|]. apply nth_error_Some. congruence.
Qed.

End LoudnessFrame.
